(** * Verification of [code/sampling/transforms.py]

    A shallow embedding of the image-augmentation transforms: the 3x3
    homogeneous matrices and their product ([np.dot]), the centering of a
    matrix on the image midpoint, the resampling driver [apply_transform],
    the random matrix builders ([Rotate], [Translate], [Shear], [Zoom]),
    the composers ([Affine], [AffineCompose]) and the simple transforms.

    Conventions of the embedding.
    - Python floats are idealised as real numbers (no rounding).
    - A NumPy array carries its dtype, its shape and its elements as a
      function of the multi-index.
    - An exception is a value of [result]; a method that reads the
      process-wide random source runs in the monad [M] over [rng], the
      stream of future draws of [random.random()] and the number of draws
      already consumed.
    - A method that may assign to an attribute of its object returns the
      object after the call. *)

From Stdlib Require Import Reals Lra Lia ZArith Bool String Ascii List.
Import ListNotations.

#[local] Set Warnings "-register-all".

Open Scope R_scope.

(** * Part I: the program *)

(** ** Exceptions *)

Inductive exn : Type :=
| IndexError
| TypeError
| ValueError
| AxisError
| RuntimeError
| AttributeError.

Inductive result (A : Type) : Type :=
| Ok (a : A)
| Raise (e : exn).

Arguments Ok {A} a.
Arguments Raise {A} e.

Definition rbind {A B} (r : result A) (k : A -> result B) : result B :=
  match r with
  | Ok a => k a
  | Raise e => Raise e
  end.

Notation "x <~ r ;; k" := (rbind r (fun x => k))
  (at level 61, r at next level, right associativity).

Fixpoint rmap_list {A B} (f : A -> result B) (l : list A) : result (list B) :=
  match l with
  | [] => Ok []
  | a :: l' => b <~ f a ;; bs <~ rmap_list f l' ;; Ok (b :: bs)
  end.

(** ** Python values that reach the constructors *)

Inductive pyval : Type :=
| PyNone
| PyInt (z : Z)
| PyFloat (r : R)
| PyStr (s : string)
| PyTuple (l : list pyval)
| PyList (l : list pyval).

(** Truth value of an object, as tested by [if v:]. *)
Definition truthy (v : pyval) : bool :=
  match v with
  | PyNone => false
  | PyInt z => negb (z =? 0)%Z
  | PyFloat r => if Req_dec_T r 0 then false else true
  | PyStr s => negb (String.eqb s EmptyString)
  | PyTuple l | PyList l => match l with [] => false | _ => true end
  end.

Definition isinstance_float (v : pyval) : bool :=
  match v with PyFloat _ => true | _ => false end.

Definition isinstance_list (v : pyval) : bool :=
  match v with PyList _ => true | _ => false end.

Definition isinstance_tuple (v : pyval) : bool :=
  match v with PyTuple _ => true | _ => false end.

(** [v[i]] for a literal, non-negative [i]. *)
Definition subscript (v : pyval) (i : nat) : result pyval :=
  match v with
  | PyTuple l | PyList l =>
      match nth_error l i with
      | Some x => Ok x
      | None => Raise IndexError
      end
  | PyStr s =>
      match String.get i s with
      | Some c => Ok (PyStr (String c EmptyString))
      | None => Raise IndexError
      end
  | PyNone | PyInt _ | PyFloat _ => Raise TypeError
  end.

(** The number an object stands for in arithmetic and in a comparison with
    a number; anything else raises [TypeError] there. *)
Definition as_num (v : pyval) : result R :=
  match v with
  | PyInt z => Ok (IZR z)
  | PyFloat r => Ok r
  | _ => Raise TypeError
  end.

(** ** 3x3 matrices ([np.array] of shape (3, 3)) *)

Record mat3 : Type := Mat3 {
  m00 : R; m01 : R; m02 : R;
  m10 : R; m11 : R; m12 : R;
  m20 : R; m21 : R; m22 : R
}.

(** [np.dot] on two 3x3 arrays: entry (i, j) is the sum over k of
    a[i][k] * b[k][j]. *)
Definition dot (a b : mat3) : mat3 :=
  Mat3
    (m00 a * m00 b + m01 a * m10 b + m02 a * m20 b)
    (m00 a * m01 b + m01 a * m11 b + m02 a * m21 b)
    (m00 a * m02 b + m01 a * m12 b + m02 a * m22 b)
    (m10 a * m00 b + m11 a * m10 b + m12 a * m20 b)
    (m10 a * m01 b + m11 a * m11 b + m12 a * m21 b)
    (m10 a * m02 b + m11 a * m12 b + m12 a * m22 b)
    (m20 a * m00 b + m21 a * m10 b + m22 a * m20 b)
    (m20 a * m01 b + m21 a * m11 b + m22 a * m21 b)
    (m20 a * m02 b + m21 a * m12 b + m22 a * m22 b).

Definition identity : mat3 := Mat3 1 0 0 0 1 0 0 0 1.

(** The homogeneous translation by (tx, ty). *)
Definition translation (tx ty : R) : mat3 := Mat3 1 0 tx 0 1 ty 0 0 1.

(** ** Centering *)

(** [transform_matrix_offset_center(matrix, x, y)]; the arguments [x] and
    [y] stand for [float(x)] and [float(y)]. *)
Definition transform_matrix_offset_center (matrix : mat3) (x y : R) : mat3 :=
  let o_x := x / 2 + 0.5 in
  let o_y := y / 2 + 0.5 in
  let offset_matrix := Mat3 1 0 o_x 0 1 o_y 0 0 1 in
  let reset_matrix := Mat3 1 0 (- o_x) 0 1 (- o_y) 0 0 1 in
  let transform_matrix := dot (dot offset_matrix matrix) reset_matrix in
  transform_matrix.

(** The specification's wording of the centering: T . M . T^-1 with T the
    translation by (o_x, o_y). *)
Definition centered_spec (M : mat3) (height width : R) : mat3 :=
  let o_x := height / 2 + 0.5 in
  let o_y := width / 2 + 0.5 in
  let T := translation o_x o_y in
  let Tinv := translation (- o_x) (- o_y) in
  dot T (dot M Tinv).

(** ** NumPy arrays *)

Inductive dtype : Type := Int64 | Float32 | Float64.

Record ndarray : Type := NdArray {
  dtype_of : dtype;
  shape : list nat;
  data : list nat -> R
}.

Definition ndim (a : ndarray) : nat := length (shape a).

(** [a.shape[i]] *)
Definition shape_at (a : ndarray) (i : nat) : result nat :=
  match nth_error (shape a) i with
  | Some n => Ok n
  | None => Raise IndexError
  end.

(** Conversion of a value to an integer type truncates toward zero. *)
Definition Rtrunc (r : R) : Z :=
  if Rle_dec 0 r then Zfloor r else Zceil r.

Definition cast_value (t : dtype) (v : R) : R :=
  match t with
  | Int64 => IZR (Rtrunc v)
  | Float32 | Float64 => v
  end.

(** [a.astype(t)] *)
Definition astype (a : ndarray) (t : dtype) : ndarray :=
  NdArray t (shape a) (fun idx => cast_value t (data a idx)).

(** The multi-indices of a shape, in row-major order. *)
Fixpoint indices (sh : list nat) : list (list nat) :=
  match sh with
  | [] => [[]]
  | n :: sh' => flat_map (fun i => map (cons i) (indices sh')) (seq 0 n)
  end.

(** [a.ravel()] as the list of the elements. *)
Definition ravel (a : ndarray) : list R := map (data a) (indices (shape a)).

(** [list.remove(x)], [list.insert(i, x)] and [list.index(x)] on the axis
    lists that [np.rollaxis] builds. *)
Fixpoint list_remove (x : nat) (l : list nat) : list nat :=
  match l with
  | [] => []
  | h :: t => if (h =? x)%nat then t else h :: list_remove x t
  end.

Fixpoint list_insert (i : nat) (x : nat) (l : list nat) : list nat :=
  match i, l with
  | O, _ => x :: l
  | S _, [] => [x]
  | S i', h :: t => h :: list_insert i' x t
  end.

Fixpoint list_index (x : nat) (l : list nat) : nat :=
  match l with
  | [] => O
  | h :: t => if (h =? x)%nat then O else S (list_index x t)
  end.

(** [a.transpose(axes)]: axis [k] of the result is axis [axes[k]] of [a]. *)
Definition transpose (a : ndarray) (axes : list nat) : ndarray :=
  NdArray (dtype_of a)
    (map (fun ax => nth ax (shape a) O) axes)
    (fun idx =>
       data a (map (fun j => nth (list_index j axes) idx O) (seq 0 (ndim a)))).

(** [normalize_axis_index(axis, n)] *)
Definition normalize_axis_index (axis : Z) (n : nat) : result nat :=
  if ((- Z.of_nat n <=? axis) && (axis <? Z.of_nat n))%Z
  then Ok (Z.to_nat (if (axis <? 0)%Z then axis + Z.of_nat n else axis))
  else Raise AxisError.

(** [np.rollaxis(a, axis, start)], after NumPy's definition:
<<
    n = a.ndim
    axis = normalize_axis_index(axis, n)
    if start < 0: start += n
    if not (0 <= start < n + 1): raise AxisError
    if axis < start: start -= 1
    if axis == start: return a[...]
    axes = list(range(0, n)); axes.remove(axis); axes.insert(start, axis)
    return a.transpose(axes)
>> *)
Definition rollaxis (a : ndarray) (axis start : Z) : result ndarray :=
  let n := ndim a in
  axis <~ normalize_axis_index axis n ;;
  let start := if (start <? 0)%Z then (start + Z.of_nat n)%Z else start in
  if negb ((0 <=? start) && (start <? Z.of_nat n + 1))%Z then Raise AxisError
  else
    let start := Z.to_nat start in
    let start := if (axis <? start)%nat then (start - 1)%nat else start in
    if (axis =? start)%nat then Ok a
    else
      let axes := seq 0 n in
      let axes := list_remove axis axes in
      let axes := list_insert start axis axes in
      Ok (transpose a axes).

(** The sub-arrays [a[0]], [a[1]], ... that iterating over [a] yields. *)
Definition subarray (a : ndarray) (c : nat) : ndarray :=
  NdArray (dtype_of a) (tl (shape a)) (fun idx => data a (c :: idx)).

Definition iterate (a : ndarray) : result (list ndarray) :=
  match shape a with
  | [] => Raise TypeError
  | n :: _ => Ok (map (subarray a) (seq 0 n))
  end.

Fixpoint shape_eqb (s1 s2 : list nat) : bool :=
  match s1, s2 with
  | [], [] => true
  | n1 :: s1', n2 :: s2' => (n1 =? n2)%nat && shape_eqb s1' s2'
  | _, _ => false
  end.

(** [np.stack(arrays, axis=0)]: the arrays must be at least one and of one
    shape. *)
Definition stack0 (arrays : list ndarray) : result ndarray :=
  match arrays with
  | [] => Raise ValueError
  | a0 :: _ =>
      if forallb (fun a => shape_eqb (shape a) (shape a0)) arrays
      then Ok (NdArray (dtype_of a0)
                 (length arrays :: shape a0)
                 (fun idx =>
                    match idx with
                    | [] => 0
                    | c :: idx' => data (nth c arrays a0) idx'
                    end))
      else Raise ValueError
  end.

(** [np.expand_dims(a, axis)] *)
Definition expand_dims (a : ndarray) (axis : Z) : result ndarray :=
  p <~ normalize_axis_index axis (S (ndim a)) ;;
  Ok (NdArray (dtype_of a)
        (firstn p (shape a) ++ 1%nat :: skipn p (shape a))
        (fun idx => data a (firstn p idx ++ skipn (S p) idx))).

(** A 3x3 matrix seen as the array it is. *)
Definition nd_of_mat (m : mat3) : ndarray :=
  NdArray Float64 [3%nat; 3%nat]
    (fun idx =>
       match idx with
       | [0%nat; 0%nat] => m00 m | [0%nat; 1%nat] => m01 m | [0%nat; 2%nat] => m02 m
       | [1%nat; 0%nat] => m10 m | [1%nat; 1%nat] => m11 m | [1%nat; 2%nat] => m12 m
       | [2%nat; 0%nat] => m20 m | [2%nat; 1%nat] => m21 m | [2%nat; 2%nat] => m22 m
       | _ => 0
       end).

(** Two arrays are the same array when dtype and shape agree and the
    elements agree at every index of the shape. *)
Definition array_eq (a b : ndarray) : Prop :=
  dtype_of a = dtype_of b /\ shape a = shape b /\
  forall idx, In idx (indices (shape a)) -> data a idx = data b idx.

(** ** The random source *)

Record rng : Type := Rng {
  stream : nat -> R;   (* the values [random.random()] will return *)
  drawn : nat          (* how many of them have been consumed *)
}.

Definition M (A : Type) : Type := rng -> result A * rng.

Definition ret {A} (a : A) : M A := fun g => (Ok a, g).

Definition raise {A} (e : exn) : M A := fun g => (Raise e, g).

Definition bind {A B} (m : M A) (k : A -> M B) : M B :=
  fun g =>
    match m g with
    | (Ok a, g') => k a g'
    | (Raise e, g') => (Raise e, g')
    end.

Definition lift {A} (r : result A) : M A := fun g => (r, g).

Notation "x <- m ;; k" := (bind m (fun x => k))
  (at level 61, m at next level, right associativity).

(** [random.random()] *)
Definition random_random : M R :=
  fun g => (Ok (stream g (drawn g)), Rng (stream g) (S (drawn g))).

(** [random.uniform(a, b)] is [a + (b - a) * self.random()]. *)
Definition random_uniform (a b : R) : M R :=
  u <- random_random ;; ret (a + (b - a) * u).

(** ** Resampling *)

Record fill_cfg : Type := FillCfg {
  fill_mode : string;
  fill_value : R;
  target_fill_mode : string;
  target_fill_value : R
}.

(** The defaults of every constructor: ['constant'], [0.], ['nearest'],
    [0.]. *)
Definition default_fill : fill_cfg :=
  FillCfg "constant" 0 "nearest" 0.

(** [transform[:2, :2]] and [transform[:2, 2]] *)
Record mat2 : Type := Mat2 { a00 : R; a01 : R; a10 : R; a11 : R }.

Definition upper_left (m : mat3) : mat2 := Mat2 (m00 m) (m01 m) (m10 m) (m11 m).

Definition last_column (m : mat3) : R * R := (m02 m, m12 m).

(** The boundary modes SciPy's [ndimage] knows (the three [grid-] modes
    since SciPy 1.6). *)
Definition ndi_modes : list string :=
  ["nearest"; "wrap"; "reflect"; "mirror"; "constant"; "grid-mirror";
   "grid-wrap"; "grid-constant"]%string.

(** What a transform call returns: an array, the pair of the transformed
    image and target, or (lazy builders) a 3x3 matrix. *)
Inductive value : Type :=
| VArr (a : ndarray)
| VPair (a b : ndarray)
| VMat (m : mat3).

(** ** The matrix builders' configuration *)

Record Rotate : Type := MkRotate {
  rotation_range : pyval;
  rotate_fill : fill_cfg;
  rotate_lazy : bool
}.

Record Translate : Type := MkTranslate {
  height_range : pyval;
  width_range : pyval;
  translate_fill : fill_cfg;
  translate_lazy : bool
}.

Record Shear : Type := MkShear {
  shear_range : pyval;
  shear_fill : fill_cfg;
  shear_lazy : bool
}.

Record Zoom : Type := MkZoom {
  zoom_range : pyval;
  zoom_fill : fill_cfg;
  zoom_lazy : bool
}.

(** ** The objects of the library

    [OCallable] is a caller-supplied callable (such as a function) that maps
    the image to a 3x3 matrix and may read the random source; [OMethod] is
    such a callable that takes no new attribute (a bound method, a builtin);
    the other constructors are the classes of the module with their
    attributes.
    [fn] of [LambdaTransform] is a caller-supplied function of the array. *)
Inductive obj : Type :=
| OCompose (transforms : list obj)
| OLambdaTransform (fn : ndarray -> result ndarray)
| OExpandDims (axis : Z)
| OToCategorical (num_classes : option Z)
| OTypeCast (dt : dtype)
| OAffine (transforms : list obj) (fc : fill_cfg)
| OAffineCompose (transforms : list obj) (fc : fill_cfg)
| ORotate (r : Rotate)
| OTranslate (t : Translate)
| OShear (s : Shear)
| OZoom (z : Zoom)
| OCallable (f : ndarray -> M mat3)
| OMethod (f : ndarray -> M mat3).

(** ** Constructors *)

Definition Rotate_init (rotation_range : pyval) (fc : fill_cfg) (lazy : bool)
  : Rotate :=
  MkRotate rotation_range fc lazy.

(** [Translate.__init__]: a float stands for the pair of itself twice; the
    two ranges are read with [translation_range[0]] and
    [translation_range[1]]. *)
Definition Translate_init (translation_range : pyval) (fc : fill_cfg)
  (lazy : bool) : result Translate :=
  let translation_range :=
    if isinstance_float translation_range
    then PyTuple [translation_range; translation_range]
    else translation_range in
  hr <~ subscript translation_range 0 ;;
  wr <~ subscript translation_range 1 ;;
  Ok (MkTranslate hr wr fc lazy).

Definition Shear_init (shear_range : pyval) (fc : fill_cfg) (lazy : bool)
  : Shear :=
  MkShear shear_range fc lazy.

(** [Zoom.__init__]: the only check is that [zoom_range] is a list or a
    tuple. *)
Definition Zoom_init (zoom_range : pyval) (fc : fill_cfg) (lazy : bool)
  : result Zoom :=
  if negb (isinstance_list zoom_range) && negb (isinstance_tuple zoom_range)
  then Raise ValueError
  else Ok (MkZoom zoom_range fc lazy).

(** [Affine.__init__]: a builder is appended for each range that is true. *)
Definition Affine_init (rotation_range translation_range shear_range
  zoom_range : pyval) (fc : fill_cfg) : result obj :=
  let transforms := [] in
  let transforms :=
    if truthy rotation_range
    then transforms ++ [ORotate (Rotate_init rotation_range default_fill true)]
    else transforms in
  transforms <~
    (if truthy translation_range
     then t <~ Translate_init translation_range default_fill true ;;
          Ok (transforms ++ [OTranslate t])
     else Ok transforms) ;;
  let transforms :=
    if truthy shear_range
    then transforms ++ [OShear (Shear_init shear_range default_fill true)]
    else transforms in
  transforms <~
    (if truthy zoom_range
     then z <~ Zoom_init zoom_range default_fill true ;;
          Ok (transforms ++ [OZoom z])
     else Ok transforms) ;;
  Ok (OAffine transforms fc).

(** [t.lazy = True] *)
Definition set_lazy (t : obj) : obj :=
  match t with
  | ORotate r => ORotate (MkRotate (rotation_range r) (rotate_fill r) true)
  | OTranslate t =>
      OTranslate (MkTranslate (height_range t) (width_range t)
                    (translate_fill t) true)
  | OShear s => OShear (MkShear (shear_range s) (shear_fill s) true)
  | OZoom z => OZoom (MkZoom (zoom_range z) (zoom_fill z) true)
  | other => other
  end.

(** The assignment [t.lazy = True] as a statement: an object that takes no
    new attribute raises [AttributeError]. *)
Definition assign_lazy (t : obj) : result obj :=
  match t with
  | OMethod _ => Raise AttributeError
  | _ => Ok (set_lazy t)
  end.

(** [AffineCompose.__init__]: the loop of lines 217-218 runs before the fill
    attributes are stored.  When an assignment raises, no [AffineCompose]
    comes to exist; the builders before the offending element have been
    set lazy by then, which the result does not show. *)
Definition AffineCompose_init (transforms : list obj) (fc : fill_cfg)
  : result obj :=
  held <~ rmap_list assign_lazy transforms ;;
  Ok (OAffineCompose held fc).

(** [tform(X)]: calling an object.  None of the classes of the module
    defines [__call__], so only a caller-supplied callable answers; calling
    an instance of a class raises [TypeError] (object is not callable). *)
Definition call (tform : obj) (X : ndarray) : M mat3 :=
  match tform with
  | OCallable f | OMethod f => f X
  | _ => raise TypeError
  end.

(** Lines 170-172 and 226-228:
<<
    tform_matrix = self.transforms[0](X)
    for tform in self.transforms[1:]:
        tform_matrix = np.dot(tform_matrix, tform(X))
>> *)
Fixpoint compose_loop (rest : list obj) (X : ndarray) (tform_matrix : mat3)
  : M mat3 :=
  match rest with
  | [] => ret tform_matrix
  | tform :: rest' =>
      m <- call tform X ;;
      compose_loop rest' X (dot tform_matrix m)
  end.

Definition compose_matrices (transforms : list obj) (X : ndarray) : M mat3 :=
  match transforms with
  | [] => raise IndexError
  | t0 :: rest =>
      tform_matrix <- call t0 X ;;
      compose_loop rest X tform_matrix
  end.

(** ** The simple transforms *)

(** [np.zeros((n, num_classes))] followed by
    [categorical[np.arange(n), X] = 1]. *)
Definition one_hot (X : list Z) (num_classes : Z) : result ndarray :=
  let n := length X in
  if (num_classes <? 0)%Z then Raise ValueError
  else if forallb (fun x => (- num_classes <=? x) && (x <? num_classes))%Z X
  then Ok (NdArray Float64 [n; Z.to_nat num_classes]
             (fun idx =>
                match idx with
                | [i; j] =>
                    let x := nth i X 0%Z in
                    let col := if (x <? 0)%Z then (x + num_classes)%Z else x in
                    if (Z.of_nat j =? col)%Z then 1 else 0
                | _ => 0
                end))
  else Raise IndexError.

(** The result of an [int64] operation whose exact value is [z]: the value
    wraps around. *)
Definition wrap_int64 (z : Z) : Z :=
  ((z + 2 ^ 63) mod 2 ^ 64 - 2 ^ 63)%Z.

(** [ToCategorical.transform]; the second component is [self.num_classes]
    after the call.  [np.max(X) + 1] is an addition of [int64]. *)
Definition ToCategorical_transform (num_classes : option Z) (X : ndarray)
  : result ndarray * option Z :=
  let X := map Rtrunc (ravel X) in
  let unset := match num_classes with
               | None => true
               | Some k => (k =? 0)%Z
               end in
  if unset then
    match X with
    | [] => (Raise ValueError, num_classes)
    | x0 :: xs =>
        let num_classes := wrap_int64 (fold_left Z.max xs x0 + 1) in
        (one_hot X num_classes, Some num_classes)
    end
  else
    match num_classes with
    | Some k => (one_hot X k, num_classes)
    | None => (Raise TypeError, num_classes)
    end.

(** A model of SciPy's order-0 lookup for the two boundary modes the module
    documents (any other mode is read as ['nearest'] here): a coordinate
    outside [0, len - 1] is answered by the constant under ['constant'] and
    clamped to the range otherwise; the pixel read is the one at
    [floor(c + 0.5)]. *)
Definition map_coordinate (mode : string) (len : nat) (c : R) : option R :=
  if Rlt_dec c 0
  then (if String.eqb mode "constant" then None else Some 0)
  else if Rlt_dec (INR len - 1) c
  then (if String.eqb mode "constant" then None else Some (INR len - 1))
  else Some c.

Definition nearest_sample (mode : string) (cval : R) (input : ndarray)
  (c0 c1 : R) : R :=
  match map_coordinate mode (nth 0 (shape input) O) c0,
        map_coordinate mode (nth 1 (shape input) O) c1 with
  | Some x0, Some x1 =>
      data input [Z.to_nat (Zfloor (x0 + 0.5)); Z.to_nat (Zfloor (x1 + 0.5))]
  | _, _ => cval
  end.

Section Resampler.

(** SciPy's order-0 lookup, which is not part of the module:
    [ndi_sample mode cval input c0 c1] is the value
    [ndi.interpolation.affine_transform(..., order=0, mode=mode, cval=cval)]
    gives an output pixel whose source coordinates in the 2-D [input] are
    ([c0], [c1]). *)
Variable ndi_sample : string -> R -> ndarray -> R -> R -> R.

(** [ndi.interpolation.affine_transform(input, matrix, offset, order=0,
    mode=mode, cval=cval)] with a 2x2 [matrix]: the output has the shape and
    dtype of the input, and output pixel [o] is sampled at
    [matrix . o + offset]. *)
Definition resample_channel (input : ndarray) (matrix : mat2)
  (offset : R * R) (mode : string) (cval : R) : ndarray :=
  NdArray (dtype_of input) (shape input)
    (fun idx =>
       match idx with
       | [i; j] =>
           ndi_sample mode cval input
             (a00 matrix * INR i + a01 matrix * INR j + fst offset)
             (a10 matrix * INR i + a11 matrix * INR j + snd offset)
       | _ => 0
       end).

Definition affine_transform (input : ndarray) (matrix : mat2)
  (offset : R * R) (mode : string) (cval : R) : result ndarray :=
  if negb (existsb (String.eqb mode) ndi_modes) then Raise RuntimeError
  else if negb (ndim input =? 2)%nat then Raise RuntimeError
  else Ok (resample_channel input matrix offset mode cval).

Definition apply_transform (x : ndarray) (transform : mat3)
  (fill_mode : string) (fill_value : R) (channel_axis : Z) : result ndarray :=
  x <~ rollaxis x channel_axis 0 ;;
  let x := astype x Float32 in
  d1 <~ shape_at x 1 ;;
  d2 <~ shape_at x 2 ;;
  let transform := transform_matrix_offset_center transform (INR d1) (INR d2) in
  let final_affine_matrix := upper_left transform in
  let final_offset := last_column transform in
  xs <~ iterate x ;;
  channel_images <~
    rmap_list (fun x_channel =>
                 affine_transform x_channel final_affine_matrix final_offset
                   fill_mode fill_value) xs ;;
  x <~ stack0 channel_images ;;
  x <~ rollaxis x 0 (channel_axis + 1) ;;
  Ok x.

(** The channel-first array [x] with every channel resampled by the centred
    matrix: what lines 82-88 build from the array of line 81. *)
Definition resample_channels (x : ndarray) (transform : mat3)
  (fill_mode : string) (fill_value : R) : ndarray :=
  let transform :=
    transform_matrix_offset_center transform
      (INR (nth 1 (shape x) O)) (INR (nth 2 (shape x) O)) in
  NdArray (dtype_of x) (shape x)
    (fun idx =>
       match idx with
       | [] => 0
       | c :: idx' =>
           data (resample_channel (subarray x c) (upper_left transform)
                   (last_column transform) fill_mode fill_value) idx'
       end).

(** The tail shared by the four builders (when not lazy) and the two
    composers: the matrix is applied to [X] with the image's fill and, when
    [y] is not [None], to [y] with the target's fill; [channel_axis] is left
    to its default, -1. *)
Definition apply_to (fc : fill_cfg) (X : ndarray) (y : option ndarray)
  (matrix : mat3) : result value :=
  x_transformed <~
    apply_transform X matrix (fill_mode fc) (fill_value fc) (-1) ;;
  match y with
  | Some y =>
      y_transformed <~
        apply_transform y matrix (target_fill_mode fc) (target_fill_value fc)
          (-1) ;;
      Ok (VPair x_transformed y_transformed)
  | None => Ok (VArr x_transformed)
  end.

(** ** The matrix builders *)

(** Lines 278-282 *)
Definition Rotate_matrix (self : Rotate) : M mat3 :=
  rr <- lift (as_num (rotation_range self)) ;;
  degree <- random_uniform (- rr) rr ;;
  let theta := PI / 180 * degree in
  ret (Mat3 (cos theta) (- sin theta) 0
            (sin theta) (cos theta) 0
            0 0 1).

Definition Rotate_transform (self : Rotate) (X : ndarray) (y : option ndarray)
  : M value :=
  rotation_matrix <- Rotate_matrix self ;;
  if rotate_lazy self then ret (VMat rotation_matrix)
  else lift (apply_to (rotate_fill self) X y rotation_matrix).

(** Lines 344-357 *)
Definition Translate_matrix (self : Translate) (X : ndarray) : M mat3 :=
  hr <- lift (as_num (height_range self)) ;;
  tx <- (if Rlt_dec 0 hr
         then u <- random_uniform (- hr) hr ;;
              n <- lift (shape_at X 0) ;;
              ret (u * INR n)
         else ret 0) ;;
  wr <- lift (as_num (width_range self)) ;;
  ty <- (if Rlt_dec 0 wr
         then u <- random_uniform (- wr) wr ;;
              n <- lift (shape_at X 1) ;;
              ret (u * INR n)
         else ret 0) ;;
  ret (Mat3 1 0 tx
            0 1 ty
            0 0 1).

Definition Translate_transform (self : Translate) (X : ndarray)
  (y : option ndarray) : M value :=
  translation_matrix <- Translate_matrix self X ;;
  if translate_lazy self then ret (VMat translation_matrix)
  else lift (apply_to (translate_fill self) X y translation_matrix).

(** Lines 407-410 *)
Definition Shear_matrix (self : Shear) : M mat3 :=
  sr <- lift (as_num (shear_range self)) ;;
  shear <- random_uniform (- sr) sr ;;
  ret (Mat3 1 (- sin shear) 0
            0 (cos shear) 0
            0 0 1).

Definition Shear_transform (self : Shear) (X : ndarray) (y : option ndarray)
  : M value :=
  shear_matrix <- Shear_matrix self ;;
  if shear_lazy self then ret (VMat shear_matrix)
  else lift (apply_to (shear_fill self) X y shear_matrix).

(** [random.uniform(self.zoom_range[0], self.zoom_range[1])] *)
Definition Zoom_draw (self : Zoom) : M R :=
  lo <- lift (subscript (zoom_range self) 0) ;;
  hi <- lift (subscript (zoom_range self) 1) ;;
  hi <- lift (as_num hi) ;;
  lo <- lift (as_num lo) ;;
  random_uniform lo hi.

(** Lines 468-472 *)
Definition Zoom_matrix (self : Zoom) : M mat3 :=
  zx <- Zoom_draw self ;;
  zy <- Zoom_draw self ;;
  ret (Mat3 zx 0 0
            0 zy 0
            0 0 1).

Definition Zoom_transform (self : Zoom) (X : ndarray) (y : option ndarray)
  : M value :=
  zoom_matrix <- Zoom_matrix self ;;
  if zoom_lazy self then ret (VMat zoom_matrix)
  else lift (apply_to (zoom_fill self) X y zoom_matrix).

(** ** The composers *)

(** [Affine.transform] and [AffineCompose.transform] have the same body. *)
Definition Affine_transform (transforms : list obj) (fc : fill_cfg)
  (X : ndarray) (y : option ndarray) : M value :=
  tform_matrix <- compose_matrices transforms X ;;
  lift (apply_to fc X y tform_matrix).

(** ** [transform] of any object

    The result comes with the object after the call and the random source
    after the call.  [Compose.transform] passes what a step returns to the
    next step as its [X], without [y]. *)

Definition as_input (v : value) : result ndarray :=
  match v with
  | VArr a => Ok a
  | VMat m => Ok (nd_of_mat m)
  | VPair _ _ => Raise TypeError
  end.

Definition keep (o : obj) (m : M value) : rng -> result value * obj * rng :=
  fun g => let (r, g') := m g in (r, o, g').

Fixpoint transform (self : obj) (X : ndarray) (y : option ndarray) (g : rng)
  {struct self} : result value * obj * rng :=
  match self with
  | OCompose transforms =>
      let fix loop (txs : list obj) (X : value) (g : rng)
        : result value * list obj * rng :=
        match txs with
        | [] => (Ok X, [], g)
        | tx :: txs' =>
            match as_input X with
            | Raise e => (Raise e, txs, g)
            | Ok X =>
                match transform tx X None g with
                | (Ok X, tx', g') =>
                    let '(r, txs'', g'') := loop txs' X g' in
                    (r, tx' :: txs'', g'')
                | (Raise e, tx', g') => (Raise e, tx' :: txs', g')
                end
            end
        end in
      let '(r, transforms', g') := loop transforms (VArr X) g in
      (r, OCompose transforms', g')
  | OLambdaTransform fn =>
      (a <~ fn X ;; Ok (VArr a), self, g)
  | OExpandDims axis =>
      (a <~ expand_dims X axis ;; Ok (VArr a), self, g)
  | OToCategorical num_classes =>
      let (r, num_classes') := ToCategorical_transform num_classes X in
      (a <~ r ;; Ok (VArr a), OToCategorical num_classes', g)
  | OTypeCast dt =>
      (Ok (VArr (astype X dt)), self, g)
  | OAffine transforms fc => keep self (Affine_transform transforms fc X y) g
  | OAffineCompose transforms fc =>
      keep self (Affine_transform transforms fc X y) g
  | ORotate r => keep self (Rotate_transform r X y) g
  | OTranslate t => keep self (Translate_transform t X y) g
  | OShear s => keep self (Shear_transform s X y) g
  | OZoom z => keep self (Zoom_transform z X y) g
  | OCallable _ | OMethod _ => (Raise AttributeError, self, g)
  end.

Definition result_of (out : result value * obj * rng) : result value :=
  fst (fst out).

Definition object_after (out : result value * obj * rng) : obj :=
  snd (fst out).

Definition rng_after (out : result value * obj * rng) : rng := snd out.

End Resampler.

(** ** Predicates of the statements *)

(** The pairs the documentation of [Zoom] asks for: a list or tuple of two
    numbers [low < high], both positive. *)
Definition valid_zoom_range (v : pyval) : Prop :=
  exists lo hi l h,
    (v = PyTuple [lo; hi] \/ v = PyList [lo; hi]) /\
    as_num lo = Ok l /\ as_num hi = Ok h /\ 0 < l /\ l < h.

(** The objects whose [transform] never assigns to an attribute: every
    object but a [ToCategorical] whose [num_classes] is unset (is [None] or
    0), looked for through the steps of a [Compose]. *)
Fixpoint stable (o : obj) : bool :=
  match o with
  | OCompose transforms => forallb stable transforms
  | OToCategorical num_classes =>
      match num_classes with
      | Some k => negb (k =? 0)%Z
      | None => false
      end
  | _ => true
  end.

(** The value [random.uniform(a, b)] returns when [random.random()]
    returns [u]. *)
Definition uniform_value (a b u : R) : R := a + (b - a) * u.

(** An array given by its shape and the list of its elements in row-major
    order. *)
Fixpoint flat_index (sh idx : list nat) : nat :=
  match sh, idx with
  | n :: sh', i :: idx' =>
      (i * fold_right Nat.mul 1 sh' + flat_index sh' idx')%nat
  | _, _ => O
  end.

Definition array_of (t : dtype) (sh : list nat) (elems : list R) : ndarray :=
  NdArray t sh (fun idx => nth (flat_index sh idx) elems 0).

(** A sampler is exact at the pixels when, asked for a source position
    that is a pixel of the input, it answers that pixel. *)
Definition exact_at_pixels
  (ndi_sample : string -> R -> ndarray -> R -> R -> R) : Prop :=
  forall mode cval input i j,
    (i < nth 0 (shape input) O)%nat ->
    (j < nth 1 (shape input) O)%nat ->
    ndi_sample mode cval input (INR i) (INR j) = data input [i; j].

(** How many draws [Translate.transform] makes for an axis of fraction
    [f]. *)
Definition draws_for (f : R) : nat := if Rlt_dec 0 f then 1%nat else 0%nat.

(** The shift [Translate.transform] gives an axis of fraction [f] and size
    [n] when the next draw is [u]. *)
Definition shift_for (f u : R) (n : nat) : R :=
  if Rlt_dec 0 f then uniform_value (- f) f u * INR n else 0.

Definition with_height_range (self : Translate) (v : pyval) : Translate :=
  MkTranslate v (width_range self) (translate_fill self) (translate_lazy self).

Definition with_width_range (self : Translate) (v : pyval) : Translate :=
  MkTranslate (height_range self) v (translate_fill self) (translate_lazy self).

(** Inputs of the examples: a random source whose draws are all 1/4, and
    images with no element set. *)
Definition quarter_rng : rng := Rng (fun _ => / 4) 0.

Definition blank (sh : list nat) : ndarray := array_of Float64 sh [].

(** A 1x2x3 image (one row, two columns, three channels) whose six
    elements differ. *)
Definition sample_image : ndarray :=
  array_of Float64 [1; 2; 3]%nat [10; 11; 12; 20; 21; 22].

(** The labels [0, 2, 1] and [0, 1]. *)
Definition labels_021 : ndarray := array_of Int64 [3%nat] [0; 2; 1].

Definition labels_01 : ndarray := array_of Int64 [2%nat] [0; 1].

(** The matrices the objects of a list answer when called one after the
    other. *)
Fixpoint call_all (transforms : list obj) (X : ndarray) : M (list mat3) :=
  match transforms with
  | [] => ret []
  | tform :: rest =>
      m <- call tform X ;;
      ms <- call_all rest X ;;
      ret (m :: ms)
  end.

(** A builder instance, as opposed to a caller-supplied callable or another
    object. *)
Definition is_builder (o : obj) : bool :=
  match o with
  | ORotate _ | OTranslate _ | OShear _ | OZoom _ => true
  | _ => false
  end.

(** ** [Compose._reset] and [Compose.fit]

    Only [Compose] defines [_reset] and [fit]; asking any other object for
    one of them raises [AttributeError]. *)
Fixpoint reset (self : obj) : result unit :=
  match self with
  | OCompose transforms =>
      let fix loop (txs : list obj) : result unit :=
        match txs with
        | [] => Ok tt
        | tx :: txs' => _ <~ reset tx ;; loop txs'
        end in
      loop transforms
  | _ => Raise AttributeError
  end.

Fixpoint fit (self : obj) (X : ndarray) (y : option ndarray) : result unit :=
  match self with
  | OCompose transforms =>
      let fix loop (txs : list obj) : result unit :=
        match txs with
        | [] => Ok tt
        | tx :: txs' => _ <~ fit tx X y ;; loop txs'
        end in
      loop transforms
  | _ => Raise AttributeError
  end.

(** The objects made of [Compose] alone, at every depth. *)
Fixpoint compose_only (o : obj) : bool :=
  match o with
  | OCompose transforms => forallb compose_only transforms
  | _ => false
  end.

(** The loop of [Compose.transform] (lines 24-25), from a given list of
    steps on. *)
Fixpoint compose_steps (ndi_sample : string -> R -> ndarray -> R -> R -> R)
  (txs : list obj) (X : value) (g : rng) : result value * list obj * rng :=
  match txs with
  | [] => (Ok X, [], g)
  | tx :: txs' =>
      match as_input X with
      | Raise e => (Raise e, txs, g)
      | Ok X =>
          match transform ndi_sample tx X None g with
          | (Ok X, tx', g') =>
              let '(r, txs'', g'') := compose_steps ndi_sample txs' X g' in
              (r, tx' :: txs'', g'')
          | (Raise e, tx', g') => (Raise e, tx' :: txs', g')
          end
      end
  end.

(** ** Notions the statements use *)

(** The steps a [Compose] holds. *)
Definition steps_of (o : obj) : list obj :=
  match o with
  | OCompose transforms => transforms
  | _ => []
  end.

(** The image of the point (px, py) under the affine map of a matrix. *)
Definition apply_point (m : mat3) (px py : R) : R * R :=
  (m00 m * px + m01 m * py + m02 m, m10 m * px + m11 m * py + m12 m).

(** The determinant of the upper-left 2x2 block. *)
Definition det2 (m : mat3) : R := m00 m * m11 m - m01 m * m10 m.

(** A matrix whose last row is [0, 0, 1]. *)
Definition affine_form (m : mat3) : Prop :=
  m20 m = 0 /\ m21 m = 0 /\ m22 m = 1.

Definition class_name (o : obj) : string :=
  match o with
  | OCompose _ => "Compose"
  | OLambdaTransform _ => "LambdaTransform"
  | OExpandDims _ => "ExpandDims"
  | OToCategorical _ => "ToCategorical"
  | OTypeCast _ => "TypeCast"
  | OAffine _ _ => "Affine"
  | OAffineCompose _ _ => "AffineCompose"
  | ORotate _ => "Rotate"
  | OTranslate _ => "Translate"
  | OShear _ => "Shear"
  | OZoom _ => "Zoom"
  | OCallable _ => "function"
  | OMethod _ => "method"
  end.

(** The [lazy] attribute of a builder. *)
Definition lazy_of (o : obj) : option bool :=
  match o with
  | ORotate r => Some (rotate_lazy r)
  | OTranslate t => Some (translate_lazy t)
  | OShear s => Some (shear_lazy s)
  | OZoom z => Some (zoom_lazy z)
  | _ => None
  end.

(** The attributes of a builder other than [lazy]: its range (for
    [Translate] the two fractions) and its fill settings. *)
Definition config_of (o : obj) : option (list pyval * fill_cfg) :=
  match o with
  | ORotate r => Some ([rotation_range r], rotate_fill r)
  | OTranslate t => Some ([height_range t; width_range t], translate_fill t)
  | OShear s => Some ([shear_range s], shear_fill s)
  | OZoom z => Some ([zoom_range z], zoom_fill z)
  | _ => None
  end.

(** The matrix a builder samples at a call of [transform] (the first
    lines of the four [transform] methods). *)
Definition sampled_matrix (o : obj) (X : ndarray) : option (M mat3) :=
  match o with
  | ORotate r => Some (Rotate_matrix r)
  | OTranslate t => Some (Translate_matrix t X)
  | OShear s => Some (Shear_matrix s)
  | OZoom z => Some (Zoom_matrix z)
  | _ => None
  end.

(** The objects on which [t.lazy = True] succeeds: all but the callables
    that take no new attribute. *)
Definition takes_attributes (o : obj) : bool :=
  match o with
  | OMethod _ => false
  | _ => true
  end.

(** The sum of row [i] of a 2-D array. *)
Definition row_sum (a : ndarray) (i : nat) : R :=
  fold_right Rplus 0
    (map (fun j => data a [i; j]) (seq 0 (nth 1 (shape a) O))).

(** The labels [ToCategorical.transform] reads from its input:
    [np.array(X, dtype='int').ravel()]. *)
Definition labels_of (X : ndarray) : list Z := map Rtrunc (ravel X).

(** * Part II: properties *)

(** ** Matrices *)

Lemma mat3_eq (a b : mat3) :
  m00 a = m00 b -> m01 a = m01 b -> m02 a = m02 b ->
  m10 a = m10 b -> m11 a = m11 b -> m12 a = m12 b ->
  m20 a = m20 b -> m21 a = m21 b -> m22 a = m22 b ->
  a = b.
Proof.
  destruct a, b; simpl; intros; subst; reflexivity.
Qed.

Ltac mat_ring := apply mat3_eq; simpl; try ring; try lra.

Lemma dot_identity_l (a : mat3) : dot identity a = a.
Proof. mat_ring. Qed.

Lemma dot_identity_r (a : mat3) : dot a identity = a.
Proof. mat_ring. Qed.

Lemma dot_assoc (a b c : mat3) : dot (dot a b) c = dot a (dot b c).
Proof. mat_ring. Qed.

Lemma translation_inverse (tx ty : R) :
  dot (translation tx ty) (translation (- tx) (- ty)) = identity.
Proof. unfold identity; mat_ring. Qed.

Lemma dot_translation (tx ty sx sy : R) :
  dot (translation tx ty) (translation sx sy) = translation (tx + sx) (ty + sy).
Proof. unfold translation; mat_ring. Qed.

(** The product is not commutative: a quarter turn and a unit shift. *)
Lemma dot_not_commutative :
  dot (Mat3 0 (-1) 0 1 0 0 0 0 1) (translation 1 0)
  <> dot (translation 1 0) (Mat3 0 (-1) 0 1 0 0 0 0 1).
Proof.
  intro H. apply (f_equal m02) in H. simpl in H. lra.
Qed.

(** ** Centering *)

(** C6: for every 3x3 matrix M and spatial dimensions height and width,
    [transform_matrix_offset_center M height width] equals T . M . T^-1,
    where T is the homogeneous translation by (o_x, o_y) with
    o_x = height/2 + 0.5 and o_y = width/2 + 0.5, and T^-1, the translation
    by (-o_x, -o_y), is the inverse of T. *)
Theorem offset_center_is_conjugation (M : mat3) (height width : R) :
  let o_x := height / 2 + 0.5 in
  let o_y := width / 2 + 0.5 in
  let T := translation o_x o_y in
  let Tinv := translation (- o_x) (- o_y) in
  transform_matrix_offset_center M height width = dot (dot T M) Tinv
  /\ transform_matrix_offset_center M height width = centered_spec M height width
  /\ dot T Tinv = identity
  /\ dot Tinv T = identity.
Proof.
  intros o_x o_y T Tinv. repeat split.
  - unfold transform_matrix_offset_center, centered_spec.
    apply dot_assoc.
  - apply translation_inverse.
  - unfold Tinv, T, identity, translation; mat_ring.
Qed.

(** The centred matrix keeps the linear part of M and only changes the
    translation column. *)
Lemma offset_center_entries (M : mat3) (x y : R) :
  m20 M = 0 -> m21 M = 0 -> m22 M = 1 ->
  let o_x := x / 2 + 0.5 in
  let o_y := y / 2 + 0.5 in
  transform_matrix_offset_center M x y =
  Mat3 (m00 M) (m01 M) (m02 M + o_x - (m00 M * o_x + m01 M * o_y))
       (m10 M) (m11 M) (m12 M + o_y - (m10 M * o_x + m11 M * o_y))
       0 0 1.
Proof.
  intros H0 H1 H2 o_x o_y. unfold transform_matrix_offset_center.
  apply mat3_eq; simpl; rewrite ?H0, ?H1, ?H2; fold o_x o_y; ring.
Qed.

Lemma offset_center_identity (x y : R) :
  transform_matrix_offset_center identity x y = identity.
Proof.
  unfold transform_matrix_offset_center, identity. mat_ring.
Qed.

(** ** The random source *)

Lemma uniform_value_bounds (f u : R) :
  0 < f -> 0 <= u < 1 ->
  - f <= uniform_value (- f) f u < f.
Proof.
  intros Hf [Hu0 Hu1]. unfold uniform_value. split; nra.
Qed.

Lemma random_uniform_eq (a b : R) (g : rng) :
  random_uniform a b g =
  (Ok (uniform_value a b (stream g (drawn g))), Rng (stream g) (S (drawn g))).
Proof. reflexivity. Qed.

(** A draw between equal bounds returns the bound, whatever is drawn. *)
Lemma uniform_value_degenerate (a u : R) : uniform_value a a u = a.
Proof. unfold uniform_value. ring. Qed.

(** ** Zoom's constructor *)

Lemma Zoom_init_pair (lo hi : pyval) (fc : fill_cfg) (lazy : bool) :
  Zoom_init (PyTuple [lo; hi]) fc lazy = Ok (MkZoom (PyTuple [lo; hi]) fc lazy)
  /\ Zoom_init (PyList [lo; hi]) fc lazy = Ok (MkZoom (PyList [lo; hi]) fc lazy).
Proof. split; reflexivity. Qed.

Lemma Zoom_matrix_numeric (zr : pyval) (fc : fill_cfg) (lazy : bool)
  (lo hi : pyval) (l h : R) (g : rng) :
  zr = PyTuple [lo; hi] \/ zr = PyList [lo; hi] ->
  as_num lo = Ok l -> as_num hi = Ok h ->
  Zoom_matrix (MkZoom zr fc lazy) g =
  (Ok (Mat3 (uniform_value l h (stream g (drawn g))) 0 0
            0 (uniform_value l h (stream g (S (drawn g)))) 0
            0 0 1),
   Rng (stream g) (S (S (drawn g)))).
Proof.
  intros Hzr Hlo Hhi.
  unfold Zoom_matrix, Zoom_draw, bind, lift, ret.
  destruct Hzr as [-> | ->]; simpl; rewrite Hlo, Hhi; reflexivity.
Qed.

(** C2, as amended: [Zoom]'s constructor raises [ValueError] at construction
    time for every [zoom_range] that is neither a list nor a tuple, and it
    succeeds for every list or tuple of two values, whatever their order and
    sign; for two numbers the first transform call raises nothing either
    and draws both factors between them. *)
Theorem Zoom_init_checks_container_only (fc : fill_cfg) (lazy : bool) :
  Zoom_init PyNone fc lazy = Raise ValueError
  /\ (forall z, Zoom_init (PyInt z) fc lazy = Raise ValueError)
  /\ (forall r, Zoom_init (PyFloat r) fc lazy = Raise ValueError)
  /\ (forall s, Zoom_init (PyStr s) fc lazy = Raise ValueError)
  /\ (forall lo hi,
        Zoom_init (PyTuple [lo; hi]) fc lazy
          = Ok (MkZoom (PyTuple [lo; hi]) fc lazy)
        /\ Zoom_init (PyList [lo; hi]) fc lazy
          = Ok (MkZoom (PyList [lo; hi]) fc lazy))
  /\ (forall zr lo hi l h g,
        zr = PyTuple [lo; hi] \/ zr = PyList [lo; hi] ->
        as_num lo = Ok l -> as_num hi = Ok h ->
        Zoom_init zr fc lazy = Ok (MkZoom zr fc lazy)
        /\ Zoom_matrix (MkZoom zr fc lazy) g =
           (Ok (Mat3 (uniform_value l h (stream g (drawn g))) 0 0
                     0 (uniform_value l h (stream g (S (drawn g)))) 0
                     0 0 1),
            Rng (stream g) (S (S (drawn g))))).
Proof.
  split; [reflexivity |]. split; [reflexivity |]. split; [reflexivity |].
  split; [reflexivity |]. split; [intros lo hi; split; reflexivity |].
  intros zr lo hi l h g Hzr Hlo Hhi. split.
  - destruct Hzr as [-> | ->]; reflexivity.
  - exact (Zoom_matrix_numeric zr fc lazy lo hi l h g Hzr Hlo Hhi).
Qed.

(** The list [-1, 2] of two integers is accepted, and the first call draws
    both factors between -1 and 2. *)
Lemma Zoom_init_checks_container_only_witness :
  let zr := PyList [PyInt (-1); PyInt 2] in
  Zoom_init zr default_fill true = Ok (MkZoom zr default_fill true)
  /\ Zoom_matrix (MkZoom zr default_fill true) quarter_rng =
     (Ok (Mat3 (uniform_value (-1) 2 (stream quarter_rng 0%nat)) 0 0
               0 (uniform_value (-1) 2 (stream quarter_rng 1%nat)) 0
               0 0 1),
      Rng (stream quarter_rng) 2).
Proof.
  intros zr.
  destruct (Zoom_init_checks_container_only default_fill true)
    as (_ & _ & _ & _ & _ & H).
  exact (H zr (PyInt (-1)) (PyInt 2) (-1) 2 quarter_rng
           (or_intror eq_refl) eq_refl eq_refl).
Defined.

(** C2 fails as stated: the pair (1.4, 0.7) has low >= high, and the pair
    (-1, 2) has a value that is not positive, yet both are accepted. *)
Lemma Zoom_init_accepts_unordered_pair :
  ~ valid_zoom_range (PyTuple [PyFloat 1.4; PyFloat 0.7])
  /\ Zoom_init (PyTuple [PyFloat 1.4; PyFloat 0.7]) default_fill false
     = Ok (MkZoom (PyTuple [PyFloat 1.4; PyFloat 0.7]) default_fill false)
  /\ ~ valid_zoom_range (PyTuple [PyInt (-1); PyInt 2])
  /\ Zoom_init (PyTuple [PyInt (-1); PyInt 2]) default_fill false
     = Ok (MkZoom (PyTuple [PyInt (-1); PyInt 2]) default_fill false).
Proof.
  repeat split.
  - intros (lo & hi & l & h & Hv & Hlo & Hhi & H0 & Hlt).
    destruct Hv as [Hv | Hv]; inversion Hv; subst.
    simpl in Hlo, Hhi. inversion Hlo; inversion Hhi; subst. lra.
  - intros (lo & hi & l & h & Hv & Hlo & Hhi & H0 & Hlt).
    destruct Hv as [Hv | Hv]; inversion Hv; subst.
    simpl in Hlo, Hhi. inversion Hlo; inversion Hhi; subst. lra.
Qed.

(** ** Translate *)

Lemma draws_for_pos (f : R) : 0 < f -> draws_for f = 1%nat.
Proof. intros H. unfold draws_for. destruct (Rlt_dec 0 f); [reflexivity | contradiction]. Qed.

Lemma draws_for_nonpos (f : R) : f <= 0 -> draws_for f = 0%nat.
Proof. intros H. unfold draws_for. destruct (Rlt_dec 0 f); [lra | reflexivity]. Qed.

Lemma Translate_matrix_eq (self : Translate) (X : ndarray) (g : rng)
  (hr wr : R) (H W : nat) :
  as_num (height_range self) = Ok hr ->
  as_num (width_range self) = Ok wr ->
  shape_at X 0 = Ok H ->
  shape_at X 1 = Ok W ->
  Translate_matrix self X g =
  (Ok (translation
         (shift_for hr (stream g (drawn g)) H)
         (shift_for wr (stream g (drawn g + draws_for hr)) W)),
   Rng (stream g) (drawn g + draws_for hr + draws_for wr)).
Proof.
  intros Hh Hw HH HW. destruct g as [st k].
  unfold Translate_matrix, bind, lift, ret, shift_for, draws_for, translation.
  rewrite Hh, Hw.
  destruct (Rlt_dec 0 hr), (Rlt_dec 0 wr);
    rewrite ?random_uniform_eq, ?HH, ?HW; cbn [stream drawn];
    rewrite ?random_uniform_eq, ?HH, ?HW; cbn [stream drawn];
    rewrite ?Nat.add_0_r, ?Nat.add_1_r; reflexivity.
Qed.

Lemma shift_for_nonpos (f u : R) (n : nat) : f <= 0 -> shift_for f u n = 0.
Proof.
  intros H. unfold shift_for. destruct (Rlt_dec 0 f); [lra | reflexivity].
Qed.

Lemma shift_for_pos (f u : R) (n : nat) :
  0 < f -> shift_for f u n = uniform_value (- f) f u * INR n.
Proof.
  intros H. unfold shift_for. destruct (Rlt_dec 0 f); [reflexivity | contradiction].
Qed.

Lemma Translate_transform_lazy (ndi_sample : string -> R -> ndarray -> R -> R -> R)
  (self : Translate) (X : ndarray) (y : option ndarray) (g g' : rng) (m : mat3) :
  translate_lazy self = true ->
  Translate_matrix self X g = (Ok m, g') ->
  transform ndi_sample (OTranslate self) X y g = (Ok (VMat m), OTranslate self, g').
Proof.
  intros Hl Hm. simpl. unfold keep, Translate_transform, bind.
  rewrite Hm, Hl. reflexivity.
Qed.

(** C8: for every [Translate] whose height fraction (respectively width
    fraction) is 0, a call to [transform] produces a translation matrix with
    exactly 0 shift on that axis and makes no draw for that axis; for a
    positive fraction f the shift on that axis is a draw of
    [random.uniform(-f, f)], which lies between -f and f, multiplied by the
    image's size along that axis. *)
Theorem Translate_zero_fraction_zero_shift
  (ndi_sample : string -> R -> ndarray -> R -> R -> R)
  (self : Translate) (X : ndarray) (y : option ndarray) (g : rng)
  (hr wr : R) (H W : nat) :
  as_num (height_range self) = Ok hr ->
  as_num (width_range self) = Ok wr ->
  shape_at X 0 = Ok H ->
  shape_at X 1 = Ok W ->
  exists tx ty g',
    Translate_matrix self X g = (Ok (translation tx ty), g')
    /\ (translate_lazy self = true ->
        transform ndi_sample (OTranslate self) X y g
        = (Ok (VMat (translation tx ty)), OTranslate self, g'))
    /\ stream g' = stream g
    /\ drawn g' = (drawn g + draws_for hr + draws_for wr)%nat
    /\ (hr = 0 -> tx = 0 /\ draws_for hr = 0%nat)
    /\ (wr = 0 -> ty = 0 /\ draws_for wr = 0%nat)
    /\ (0 < hr ->
        draws_for hr = 1%nat
        /\ tx = uniform_value (- hr) hr (stream g (drawn g)) * INR H
        /\ (0 <= stream g (drawn g) < 1 ->
            - hr <= uniform_value (- hr) hr (stream g (drawn g)) < hr))
    /\ (0 < wr ->
        draws_for wr = 1%nat
        /\ ty = uniform_value (- wr) wr
                  (stream g (drawn g + draws_for hr)) * INR W
        /\ (0 <= stream g (drawn g + draws_for hr) < 1 ->
            - wr <= uniform_value (- wr) wr
                      (stream g (drawn g + draws_for hr)) < wr)).
Proof.
  intros Hh Hw HH HW.
  pose proof (Translate_matrix_eq self X g hr wr H W Hh Hw HH HW) as E.
  eexists _, _, _. split; [exact E |].
  split; [intros Hl; apply Translate_transform_lazy; assumption |].
  split; [reflexivity |]. split; [reflexivity |].
  split; [intros ->; split;
          [apply shift_for_nonpos; lra | apply draws_for_nonpos; lra] |].
  split; [intros ->; split;
          [apply shift_for_nonpos; lra | apply draws_for_nonpos; lra] |].
  split; intros Hpos.
  - split; [apply draws_for_pos; assumption |].
    split; [apply shift_for_pos; assumption |].
    intros Hu. apply uniform_value_bounds; assumption.
  - split; [apply draws_for_pos; assumption |].
    split; [apply shift_for_pos; assumption |].
    intros Hu. apply uniform_value_bounds; assumption.
Qed.

(** [Translate((0, 0.1), lazy=True)] on a 4x5x3 image: no shift along the
    height, and one draw in all. *)
Lemma Translate_zero_fraction_zero_shift_witness :
  exists ty g',
    transform nearest_sample
      (OTranslate (MkTranslate (PyInt 0) (PyFloat 0.1) default_fill true))
      (blank [4; 5; 3]%nat) None quarter_rng
    = (Ok (VMat (translation 0 ty)),
       OTranslate (MkTranslate (PyInt 0) (PyFloat 0.1) default_fill true), g')
    /\ drawn g' = 1%nat.
Proof.
  destruct (Translate_zero_fraction_zero_shift nearest_sample
              (MkTranslate (PyInt 0) (PyFloat 0.1) default_fill true)
              (blank [4; 5; 3]%nat) None quarter_rng 0 0.1 4 5
              eq_refl eq_refl eq_refl eq_refl)
    as (tx & ty & g' & _ & Hlazy & _ & Hdrawn & Hzero & _ & _ & Hpos).
  destruct (Hzero eq_refl) as [Htx Hd0].
  assert (Hw : 0 < 0.1) by lra.
  destruct (Hpos Hw) as [Hd1 _].
  exists ty, g'. split.
  - rewrite <- Htx. apply Hlazy. reflexivity.
  - rewrite Hdrawn, Hd0, Hd1. reflexivity.
Defined.

(** C10: for every [Translate] with a negative fraction for an axis, a call
    to [transform] produces exactly 0 shift on that axis, makes no draw for
    it and raises nothing: the matrix and the random source after the call
    are those a zero fraction gives. *)
Theorem Translate_negative_fraction_as_zero
  (self : Translate) (X : ndarray) (g : rng) (hr wr : R) (H W : nat) :
  as_num (height_range self) = Ok hr ->
  as_num (width_range self) = Ok wr ->
  shape_at X 0 = Ok H ->
  shape_at X 1 = Ok W ->
  (hr < 0 ->
   Translate_matrix self X g
   = (Ok (translation 0 (shift_for wr (stream g (drawn g)) W)),
      Rng (stream g) (drawn g + draws_for wr))
   /\ Translate_matrix self X g
      = Translate_matrix (with_height_range self (PyInt 0)) X g)
  /\ (wr < 0 ->
      Translate_matrix self X g
      = (Ok (translation (shift_for hr (stream g (drawn g)) H) 0),
         Rng (stream g) (drawn g + draws_for hr))
      /\ Translate_matrix self X g
         = Translate_matrix (with_width_range self (PyInt 0)) X g).
Proof.
  intros Hh Hw HH HW.
  pose proof (Translate_matrix_eq self X g hr wr H W Hh Hw HH HW) as E.
  split; intros Hneg.
  - pose proof (Translate_matrix_eq (with_height_range self (PyInt 0)) X g
                  0 wr H W eq_refl Hw HH HW) as E0.
    rewrite E, E0.
    rewrite (shift_for_nonpos hr), (shift_for_nonpos 0) by lra.
    rewrite (draws_for_nonpos hr), (draws_for_nonpos 0) by lra.
    rewrite !Nat.add_0_r. split; reflexivity.
  - pose proof (Translate_matrix_eq (with_width_range self (PyInt 0)) X g
                  hr 0 H W Hh eq_refl HH HW) as E0.
    rewrite E, E0.
    rewrite (shift_for_nonpos wr), (shift_for_nonpos 0) by lra.
    rewrite (draws_for_nonpos wr), (draws_for_nonpos 0) by lra.
    rewrite !Nat.add_0_r. split; reflexivity.
Qed.

(** [Translate((-0.2, 0.1))] on a 4x5x3 image. *)
Lemma Translate_negative_fraction_as_zero_witness :
  -0.2 < 0
  /\ Translate_matrix
       (MkTranslate (PyFloat (-0.2)) (PyFloat 0.1) default_fill false)
       (blank [4; 5; 3]%nat) quarter_rng
     = Translate_matrix
         (MkTranslate (PyInt 0) (PyFloat 0.1) default_fill false)
         (blank [4; 5; 3]%nat) quarter_rng.
Proof.
  assert (Hneg : -0.2 < 0) by lra.
  split; [exact Hneg |].
  exact (proj2 (proj1 (Translate_negative_fraction_as_zero
           (MkTranslate (PyFloat (-0.2)) (PyFloat 0.1) default_fill false)
           (blank [4; 5; 3]%nat) quarter_rng (-0.2) 0.1 4 5
           eq_refl eq_refl eq_refl eq_refl) Hneg)).
Defined.

(** ** Arrays *)

Lemma shape_eqb_refl (s : list nat) : shape_eqb s s = true.
Proof.
  induction s as [| n s IH]; simpl; [reflexivity |].
  rewrite Nat.eqb_refl, IH. reflexivity.
Qed.

Lemma rmap_list_ok {A B} (f : A -> result B) (g : A -> B) (l : list A) :
  (forall a, In a l -> f a = Ok (g a)) ->
  rmap_list f l = Ok (map g l).
Proof.
  induction l as [| a l IH]; intros H; simpl; [reflexivity |].
  rewrite (H a (or_introl eq_refl)). simpl.
  rewrite IH by (intros b Hb; apply H; right; exact Hb).
  reflexivity.
Qed.

Lemma indices_spec (sh idx : list nat) :
  In idx (indices sh) <-> Forall2 lt idx sh.
Proof.
  revert idx. induction sh as [| n sh IH]; intros idx; simpl.
  - split.
    + intros [<- | []]. constructor.
    + intros H. inversion H. left. reflexivity.
  - rewrite in_flat_map. split.
    + intros (i & Hi & Hin). apply in_map_iff in Hin.
      destruct Hin as (idx' & <- & Hin'). apply in_seq in Hi.
      constructor; [lia | apply IH; exact Hin'].
    + intros H. inversion H as [| i n' idx' sh' Hlt Hrest]; subst.
      exists i. split; [apply in_seq; lia |].
      apply in_map. apply IH. exact Hrest.
Qed.

Lemma nearest_sample_exact : exact_at_pixels nearest_sample.
Proof.
  intros mode cval input i j Hi Hj.
  assert (Hc : forall k len, (k < len)%nat ->
             map_coordinate mode len (INR k) = Some (INR k)).
  { intros k len Hk. unfold map_coordinate.
    pose proof (pos_INR k) as Hpos.
    destruct (Rlt_dec (INR k) 0) as [Hneg | _]; [lra |].
    assert (Hk' : (S k <= len)%nat) by lia.
    apply le_INR in Hk'. rewrite S_INR in Hk'.
    destruct (Rlt_dec (INR len - 1) (INR k)) as [Hbig | _]; [lra |].
    reflexivity. }
  assert (Hf : forall k, Z.to_nat (Zfloor (INR k + 0.5)) = k).
  { intros k. rewrite (Zfloor_eq (Z.of_nat k)).
    - apply Nat2Z.id.
    - rewrite <- INR_IZR_INZ. lra. }
  unfold nearest_sample. rewrite (Hc i _ Hi), (Hc j _ Hj), !Hf. reflexivity.
Qed.

Lemma mode_ok (mode : string) :
  In mode ndi_modes -> existsb (String.eqb mode) ndi_modes = true.
Proof.
  intros H. apply existsb_exists. exists mode.
  split; [exact H | apply String.eqb_refl].
Qed.

Lemma rollaxis_last_front (a : ndarray) :
  ndim a = 3%nat -> rollaxis a (-1) 0 = Ok (transpose a [2; 0; 1]%nat).
Proof. intros H. unfold rollaxis. rewrite H. reflexivity. Qed.

Lemma rollaxis_2_front (a : ndarray) :
  ndim a = 3%nat -> rollaxis a 2 0 = Ok (transpose a [2; 0; 1]%nat).
Proof. intros H. unfold rollaxis. rewrite H. reflexivity. Qed.

(** [np.rollaxis(a, 0, 0)] is [a]: this is the call line 89 makes when
    [channel_axis] is -1. *)
Lemma rollaxis_front_front (a : ndarray) :
  ndim a = 3%nat -> rollaxis a 0 0 = Ok a.
Proof. intros H. unfold rollaxis. rewrite H. reflexivity. Qed.

Lemma rollaxis_front_last (a : ndarray) :
  ndim a = 3%nat -> rollaxis a 0 3 = Ok (transpose a [1; 2; 0]%nat).
Proof. intros H. unfold rollaxis. rewrite H. reflexivity. Qed.

Lemma array_eq_refl (a : ndarray) : array_eq a a.
Proof. repeat split. Qed.

Lemma array_eq_trans (a b c : ndarray) :
  array_eq a b -> array_eq b c -> array_eq a c.
Proof.
  intros (Hd1 & Hs1 & He1) (Hd2 & Hs2 & He2). repeat split.
  - congruence.
  - congruence.
  - intros idx Hin. rewrite He1 by exact Hin. apply He2.
    rewrite <- Hs1. exact Hin.
Qed.

Lemma indices3 (idx : list nat) (n0 n1 n2 : nat) :
  In idx (indices [n0; n1; n2]) ->
  exists i0 i1 i2,
    idx = [i0; i1; i2] /\ (i0 < n0)%nat /\ (i1 < n1)%nat /\ (i2 < n2)%nat.
Proof.
  intros H. apply indices_spec in H.
  inversion H as [| i0 ? l0 ? H0 R0]; subst.
  inversion R0 as [| i1 ? l1 ? H1 R1]; subst.
  inversion R1 as [| i2 ? l2 ? H2 R2]; subst.
  inversion R2; subst.
  exists i0, i1, i2. repeat split; assumption.
Qed.

Lemma indices3_in (i0 i1 i2 n0 n1 n2 : nat) :
  (i0 < n0)%nat -> (i1 < n1)%nat -> (i2 < n2)%nat ->
  In [i0; i1; i2] (indices [n0; n1; n2]).
Proof.
  intros H0 H1 H2. apply indices_spec.
  apply Forall2_cons; [exact H0 |].
  apply Forall2_cons; [exact H1 |].
  apply Forall2_cons; [exact H2 |].
  apply Forall2_nil.
Qed.

Lemma transpose_120_eq (a b : ndarray) (n0 n1 n2 : nat) :
  shape a = [n0; n1; n2] ->
  array_eq a b ->
  array_eq (transpose a [1; 2; 0]%nat) (transpose b [1; 2; 0]%nat).
Proof.
  destruct a as [da sa fa], b as [db sb fb].
  intros Hs (Hd & Hsh & Hdat). cbn [dtype_of shape data] in *. subst sa sb.
  unfold array_eq, transpose, ndim. cbn [dtype_of shape data length].
  split; [exact Hd |]. split; [reflexivity |].
  cbn [map nth seq list_index Nat.eqb].
  intros idx Hin. apply indices3 in Hin.
  destruct Hin as (i & j & k & -> & Hi & Hj & Hk).
  cbn [nth]. apply Hdat. apply indices3_in; assumption.
Qed.

Lemma transpose_round_trip (x : ndarray) (t : dtype) (n0 n1 n2 : nat) :
  shape x = [n0; n1; n2] ->
  array_eq (transpose (astype (transpose x [2; 0; 1]%nat) t) [1; 2; 0]%nat)
           (astype x t).
Proof.
  destruct x as [dx sx fx]. cbn [shape]. intros ->.
  unfold array_eq, transpose, astype, ndim. cbn [dtype_of shape data length].
  split; [reflexivity |]. split; [reflexivity |].
  cbn [map nth seq list_index Nat.eqb].
  intros idx Hin. apply indices3 in Hin.
  destruct Hin as (i & j & k & -> & Hi & Hj & Hk).
  reflexivity.
Qed.

Section ApplyTransform.

Variable ndi_sample : string -> R -> ndarray -> R -> R -> R.

(** Lines 80-88: up to the stacking of the channels. *)
Lemma stack0_map (g : ndarray -> ndarray) (l : list ndarray) (a0 : ndarray)
  (sh : list nat) (dt : dtype) :
  (forall a, In a (a0 :: l) -> shape (g a) = sh /\ dtype_of (g a) = dt) ->
  stack0 (map g (a0 :: l)) =
  Ok (NdArray dt (S (length l) :: sh)
        (fun idx =>
           match idx with
           | [] => 0
           | c :: idx' => data (nth c (map g (a0 :: l)) (g a0)) idx'
           end)).
Proof.
  intros H. unfold stack0. cbn [map].
  assert (E : forallb (fun a => shape_eqb (shape a) (shape (g a0)))
                (g a0 :: map g l) = true).
  { apply forallb_forall. intros b Hb.
    change (g a0 :: map g l) with (map g (a0 :: l)) in Hb.
    apply in_map_iff in Hb. destruct Hb as (a & <- & Ha).
    destruct (H a Ha) as [-> _]. destruct (H a0 (or_introl eq_refl)) as [-> _].
    apply shape_eqb_refl. }
  rewrite E. destruct (H a0 (or_introl eq_refl)) as [-> ->].
  cbn [length]. rewrite length_map. reflexivity.
Qed.

Lemma channels_stacked (x : ndarray) (M : mat3) (mode : string) (cval : R)
  (c h w : nat) :
  shape x = [S c; h; w] ->
  In mode ndi_modes ->
  let T := transform_matrix_offset_center M (INR h) (INR w) in
  exists s,
    (forall (B : Type) (k : ndarray -> result B),
       (xs <~ iterate x ;;
        channel_images <~
          rmap_list (fun x_channel =>
                       affine_transform ndi_sample x_channel (upper_left T)
                         (last_column T) mode cval) xs ;;
        x <~ stack0 channel_images ;;
        k x) = k s)
    /\ ndim s = 3%nat
    /\ array_eq s (resample_channels ndi_sample x M mode cval).
Proof.
  intros Hs Hm T.
  set (g := fun a => resample_channel ndi_sample a (upper_left T)
                       (last_column T) mode cval).
  assert (Hmap :
    rmap_list (fun x_channel =>
                 affine_transform ndi_sample x_channel (upper_left T)
                   (last_column T) mode cval)
      (map (subarray x) (seq 0 (S c)))
    = Ok (map g (map (subarray x) (seq 0 (S c))))).
  { apply rmap_list_ok. intros a Ha. apply in_map_iff in Ha.
    destruct Ha as (k & <- & _).
    unfold affine_transform. rewrite mode_ok by exact Hm.
    unfold ndim, subarray. cbn [shape]. rewrite Hs. reflexivity. }
  assert (Hstack :
    stack0 (map g (map (subarray x) (seq 0 (S c))))
    = Ok (NdArray (dtype_of x) (S (length (map (subarray x) (seq 1 c))) :: [h; w])
            (fun idx =>
               match idx with
               | [] => 0
               | k :: idx' =>
                   data (nth k (map g (map (subarray x) (seq 0 (S c))))
                           (g (subarray x 0))) idx'
               end))).
  { change (seq 0 (S c)) with (0%nat :: seq 1 c).
    rewrite (map_cons (subarray x)).
    apply (stack0_map g _ _ [h; w] (dtype_of x)).
    intros a Ha. change (subarray x 0 :: map (subarray x) (seq 1 c))
      with (map (subarray x) (seq 0 (S c))) in Ha.
    apply in_map_iff in Ha. destruct Ha as (k & <- & _).
    unfold g, resample_channel, subarray. cbn [shape dtype_of].
    rewrite Hs. split; reflexivity. }
  eexists. split; [| split].
  - intros B k. unfold iterate. rewrite Hs. cbn [rbind].
    rewrite Hmap. cbn [rbind]. rewrite Hstack. cbn [rbind]. reflexivity.
  - reflexivity.
  - unfold array_eq, resample_channels. cbn [dtype_of shape data].
    rewrite Hs, !length_map, length_seq. cbn [nth].
    split; [reflexivity |]. split; [reflexivity |].
    intros idx Hin. apply indices3 in Hin.
    destruct Hin as (k & i & j & -> & Hk & Hi & Hj).
    rewrite map_map.
    rewrite (map_nth (fun k => g (subarray x k)) (seq 0 (S c)) O k).
    rewrite seq_nth by exact Hk. reflexivity.
Qed.

(** With [channel_axis] left to -1, line 89 is [np.rollaxis(x, 0, 0)] and
    gives the stacked array back: a (h, w, c) image comes out channel first,
    with shape (c, h, w). *)
Lemma apply_transform_default_axis (x : ndarray) (M : mat3) (mode : string)
  (cval : R) (h w c : nat) :
  shape x = [h; w; S c] ->
  In mode ndi_modes ->
  exists r,
    apply_transform ndi_sample x M mode cval (-1) = Ok r
    /\ array_eq r
         (resample_channels ndi_sample
            (astype (transpose x [2; 0; 1]%nat) Float32) M mode cval).
Proof.
  intros Hs Hm. unfold apply_transform.
  rewrite rollaxis_last_front by (unfold ndim; rewrite Hs; reflexivity).
  cbn [rbind].
  set (x' := astype (transpose x [2; 0; 1]%nat) Float32).
  assert (Hs' : shape x' = [S c; h; w])
    by (unfold x'; simpl; rewrite Hs; reflexivity).
  unfold shape_at. rewrite Hs'. cbn [nth_error rbind].
  destruct (channels_stacked x' M mode cval c h w Hs' Hm) as (s & Es & Hn & Heq).
  rewrite Es. change (-1 + 1)%Z with 0%Z.
  rewrite rollaxis_front_front by exact Hn. cbn [rbind].
  exists s. split; [reflexivity | exact Heq].
Qed.

(** With the channel axis given as 2, line 89 is [np.rollaxis(x, 0, 3)] and
    puts the channels last again. *)
Lemma apply_transform_axis_2 (x : ndarray) (M : mat3) (mode : string)
  (cval : R) (h w c : nat) :
  shape x = [h; w; S c] ->
  In mode ndi_modes ->
  exists r,
    apply_transform ndi_sample x M mode cval 2 = Ok r
    /\ array_eq r
         (transpose
            (resample_channels ndi_sample
               (astype (transpose x [2; 0; 1]%nat) Float32) M mode cval)
            [1; 2; 0]%nat).
Proof.
  intros Hs Hm. unfold apply_transform.
  rewrite rollaxis_2_front by (unfold ndim; rewrite Hs; reflexivity).
  cbn [rbind].
  set (x' := astype (transpose x [2; 0; 1]%nat) Float32).
  assert (Hs' : shape x' = [S c; h; w])
    by (unfold x'; simpl; rewrite Hs; reflexivity).
  unfold shape_at. rewrite Hs'. cbn [nth_error rbind].
  destruct (channels_stacked x' M mode cval c h w Hs' Hm) as (s & Es & Hn & Heq).
  rewrite Es. change (2 + 1)%Z with 3%Z.
  rewrite rollaxis_front_last by exact Hn. cbn [rbind].
  exists (transpose s [1; 2; 0]%nat). split; [reflexivity |].
  destruct Heq as (Hd & Hsh & Hdat).
  cbn [resample_channels shape] in Hsh. rewrite Hs' in Hsh.
  unfold array_eq, transpose. cbn [dtype_of shape data].
  unfold ndim. cbn [resample_channels shape]. rewrite Hsh, Hs'.
  split; [exact Hd |]. split; [reflexivity |].
  cbn [map nth length seq list_index Nat.eqb].
  intros idx Hin. apply indices3 in Hin.
  destruct Hin as (i & j & k & -> & Hi & Hj & Hk).
  cbn [nth]. apply Hdat. rewrite Hsh. apply indices3_in; assumption.
Qed.

(** The shapes the two lemmas give. *)
Lemma apply_transform_shapes (x : ndarray) (M : mat3) (mode : string)
  (cval : R) (h w c : nat) :
  shape x = [h; w; S c] ->
  In mode ndi_modes ->
  (exists r, apply_transform ndi_sample x M mode cval (-1) = Ok r
             /\ shape r = [S c; h; w] /\ dtype_of r = Float32)
  /\ (exists r, apply_transform ndi_sample x M mode cval 2 = Ok r
                /\ shape r = [h; w; S c] /\ dtype_of r = Float32).
Proof.
  intros Hs Hm. split.
  - destruct (apply_transform_default_axis x M mode cval h w c Hs Hm)
      as (r & E & Hd & Hsh & _).
    exists r. split; [exact E |]. split.
    + rewrite Hsh. simpl. rewrite Hs. reflexivity.
    + rewrite Hd. reflexivity.
  - destruct (apply_transform_axis_2 x M mode cval h w c Hs Hm)
      as (r & E & Hd & Hsh & _).
    exists r. split; [exact E |]. split.
    + rewrite Hsh. simpl. rewrite Hs. reflexivity.
    + rewrite Hd. reflexivity.
Qed.

(** Resampling with the identity matrix reads every pixel at its own
    position. *)
Lemma resample_channels_identity (x : ndarray) (mode : string) (cval : R)
  (c h w : nat) :
  exact_at_pixels ndi_sample ->
  shape x = [c; h; w] ->
  array_eq (resample_channels ndi_sample x identity mode cval) x.
Proof.
  intros Hex Hs. unfold array_eq, resample_channels.
  cbn [dtype_of shape data].
  split; [reflexivity |]. split; [reflexivity |].
  rewrite Hs. intros idx Hin. apply indices3 in Hin.
  destruct Hin as (k & i & j & -> & Hk & Hi & Hj).
  cbn [nth]. rewrite offset_center_identity.
  unfold resample_channel. cbn [data upper_left last_column identity
    a00 a01 a10 a11 m00 m01 m02 m10 m11 m12 fst snd].
  replace (1 * INR i + 0 * INR j + 0) with (INR i) by ring.
  replace (0 * INR i + 1 * INR j + 0) with (INR j) by ring.
  rewrite Hex.
  - reflexivity.
  - unfold subarray. cbn [shape]. rewrite Hs. exact Hi.
  - unfold subarray. cbn [shape]. rewrite Hs. exact Hj.
Qed.

(** Applying the identity: with the channel axis given as 2 the image comes
    back (cast to float32); with the default -1 its channel-first
    rearrangement comes back instead. *)
Lemma apply_transform_identity (x : ndarray) (mode : string) (cval : R)
  (h w c : nat) :
  exact_at_pixels ndi_sample ->
  shape x = [h; w; S c] ->
  In mode ndi_modes ->
  (exists r, apply_transform ndi_sample x identity mode cval 2 = Ok r
             /\ array_eq r (astype x Float32))
  /\ (exists r, apply_transform ndi_sample x identity mode cval (-1) = Ok r
                /\ array_eq r (astype (transpose x [2; 0; 1]%nat) Float32)).
Proof.
  intros Hex Hs Hm.
  set (x' := astype (transpose x [2; 0; 1]%nat) Float32).
  assert (Hs' : shape x' = [S c; h; w])
    by (unfold x'; simpl; rewrite Hs; reflexivity).
  pose proof (resample_channels_identity x' mode cval (S c) h w Hex Hs') as Hid.
  split.
  - destruct (apply_transform_axis_2 x identity mode cval h w c Hs Hm)
      as (r & E & Hr).
    exists r. split; [exact E |].
    apply (array_eq_trans _ _ _ Hr). fold x'.
    apply (array_eq_trans _ (transpose x' [1; 2; 0]%nat)).
    + apply (transpose_120_eq _ _ (S c) h w); [exact Hs' | exact Hid].
    + apply (transpose_round_trip x Float32 h w (S c) Hs).
  - destruct (apply_transform_default_axis x identity mode cval h w c Hs Hm)
      as (r & E & Hr).
    exists r. split; [exact E |].
    apply (array_eq_trans _ _ _ Hr). exact Hid.
Qed.

End ApplyTransform.

(** ** [apply_transform] on concrete images *)

(** C1 fails on the code: with [channel_axis] left to its default, as every
    caller in the module leaves it, an image of shape (h, w, c) comes back
    with shape (c, h, w), so a 2x3x4 image comes back with shape (4, 2, 3);
    the dtype is float32.  The same call with the channel axis given as 2
    keeps the shape. *)
Theorem apply_transform_default_axis_changes_shape
  (ndi_sample : string -> R -> ndarray -> R -> R -> R) (M : mat3)
  (dt : dtype) (dat : list nat -> R) (h w c : nat) :
  let x := NdArray dt [h; w; S c] dat in
  (exists r,
     apply_transform ndi_sample x M "nearest" 0 (-1) = Ok r
     /\ shape r = [S c; h; w]
     /\ dtype_of r = Float32)
  /\ (exists r,
        apply_transform ndi_sample x M "nearest" 0 2 = Ok r
        /\ shape r = shape x
        /\ dtype_of r = Float32)
  /\ (exists r,
        apply_transform ndi_sample (blank [2; 3; 4]%nat) M "nearest" 0 (-1)
        = Ok r
        /\ shape r = [4; 2; 3]%nat
        /\ shape r <> shape (blank [2; 3; 4]%nat)).
Proof.
  intros x.
  assert (Hm : In "nearest"%string ndi_modes) by (left; reflexivity).
  destruct (apply_transform_shapes ndi_sample x M "nearest" 0 h w c eq_refl Hm)
    as [Hdefault Hexplicit].
  split; [exact Hdefault |]. split; [exact Hexplicit |].
  destruct (apply_transform_shapes ndi_sample (blank [2; 3; 4]%nat) M
              "nearest" 0 2 3 3 eq_refl Hm)
    as [(r & E & Hs & _) _].
  exists r. split; [exact E |]. split; [exact Hs |].
  rewrite Hs. discriminate.
Qed.

(** C7 fails on the code in its last part: the identity matrix applied by
    [apply_transform] (fill mode ['constant'], channel axis left to its
    default) to an image of shape (h, w, c) returns the channel-first
    rearrangement of the image; for the 1x2x3 image this is an array of
    shape (3, 1, 2) (the element at [0, 1, 2] of the image is found at
    [2, 0, 1]), which is not the image. *)
Theorem apply_identity_returns_channel_first
  (dt : dtype) (dat : list nat -> R) (h w c : nat) :
  let x := NdArray dt [h; w; S c] dat in
  (exists r,
     apply_transform nearest_sample x identity "constant" 0 (-1) = Ok r
     /\ array_eq r (astype (transpose x [2; 0; 1]%nat) Float32))
  /\ (exists r,
        apply_transform nearest_sample sample_image identity "constant" 0 (-1)
        = Ok r
        /\ shape sample_image = [1; 2; 3]%nat
        /\ shape r = [3; 1; 2]%nat
        /\ data sample_image [0; 1; 2]%nat = 22
        /\ data r [2; 0; 1]%nat = 22
        /\ ~ array_eq r (astype sample_image Float32)).
Proof.
  intros x.
  assert (Hm : In "constant"%string ndi_modes)
    by (unfold ndi_modes; simpl; tauto).
  split.
  - exact (proj2 (apply_transform_identity nearest_sample x "constant" 0
                    h w c nearest_sample_exact eq_refl Hm)).
  - destruct (apply_transform_identity nearest_sample sample_image "constant"
                0 1 2 2 nearest_sample_exact eq_refl Hm)
      as [_ (r & E & Hd & Hs & Hdat)].
    exists r. split; [exact E |]. split; [reflexivity |].
    split; [exact Hs |]. split; [reflexivity |]. split.
    + rewrite Hdat.
      * reflexivity.
      * rewrite Hs. apply (indices3_in 2 0 1 3 1 2); lia.
    + intros (_ & Hs2 & _). rewrite Hs in Hs2. discriminate Hs2.
Qed.

(** ** The builders at a zero range *)

Lemma Rotate_zero_range (fc : fill_cfg) (lazy : bool) (g : rng) :
  Rotate_matrix (MkRotate (PyInt 0) fc lazy) g
  = (Ok identity, Rng (stream g) (S (drawn g))).
Proof.
  unfold Rotate_matrix, bind, lift. cbn [as_num rotation_range].
  rewrite random_uniform_eq. unfold ret. f_equal. f_equal.
  replace (PI / 180 * uniform_value (- 0) 0 (stream g (drawn g))) with 0
    by (unfold uniform_value; field).
  rewrite cos_0, sin_0. unfold identity. f_equal; lra.
Qed.

Lemma Shear_zero_range (fc : fill_cfg) (lazy : bool) (g : rng) :
  Shear_matrix (MkShear (PyInt 0) fc lazy) g
  = (Ok identity, Rng (stream g) (S (drawn g))).
Proof.
  unfold Shear_matrix, bind, lift. cbn [as_num shear_range].
  rewrite random_uniform_eq. unfold ret. f_equal. f_equal.
  replace (uniform_value (- 0) 0 (stream g (drawn g))) with 0
    by (unfold uniform_value; ring).
  rewrite cos_0, sin_0. unfold identity. f_equal; lra.
Qed.

(** [Translate(0.)] and [Translate((0, 0))] give the identity and draw
    nothing; the integer 0 alone is refused by the constructor, which
    subscripts it. *)
Lemma Translate_zero_range (fc : fill_cfg) (lazy : bool) (X : ndarray)
  (g : rng) :
  Translate_init (PyFloat 0) fc lazy
  = Ok (MkTranslate (PyFloat 0) (PyFloat 0) fc lazy)
  /\ Translate_init (PyTuple [PyInt 0; PyInt 0]) fc lazy
     = Ok (MkTranslate (PyInt 0) (PyInt 0) fc lazy)
  /\ Translate_matrix (MkTranslate (PyFloat 0) (PyFloat 0) fc lazy) X g
     = (Ok identity, g)
  /\ Translate_matrix (MkTranslate (PyInt 0) (PyInt 0) fc lazy) X g
     = (Ok identity, g)
  /\ Translate_init (PyInt 0) fc lazy = Raise TypeError.
Proof.
  split; [reflexivity |]. split; [reflexivity |].
  assert (E : forall v, as_num v = Ok 0 ->
                Translate_matrix (MkTranslate v v fc lazy) X g
                = (Ok identity, g)).
  { intros v Hv. unfold Translate_matrix, bind, lift, ret.
    cbn [height_range width_range]. rewrite Hv.
    destruct (Rlt_dec 0 0) as [H | _]; [lra | reflexivity]. }
  split; [apply E; reflexivity |]. split; [apply E; reflexivity | reflexivity].
Qed.

Lemma Zoom_unit_range (fc : fill_cfg) (lazy : bool) (g : rng) :
  Zoom_init (PyTuple [PyInt 1; PyInt 1]) fc lazy
  = Ok (MkZoom (PyTuple [PyInt 1; PyInt 1]) fc lazy)
  /\ Zoom_matrix (MkZoom (PyTuple [PyInt 1; PyInt 1]) fc lazy) g
     = (Ok identity, Rng (stream g) (S (S (drawn g)))).
Proof.
  split; [reflexivity |].
  rewrite (Zoom_matrix_numeric _ fc lazy (PyInt 1) (PyInt 1) 1 1 g
             (or_introl eq_refl) eq_refl eq_refl).
  rewrite !uniform_value_degenerate. reflexivity.
Qed.

(** The four identity matrices multiply to the identity. *)
Lemma identity_product :
  dot (dot (dot identity identity) identity) identity = identity.
Proof. rewrite !dot_identity_l. reflexivity. Qed.

(** ** The composers *)

Lemma compose_loop_product (rest : list obj) (X : ndarray) (m : mat3)
  (ms : list mat3) (g g' : rng) :
  call_all rest X g = (Ok ms, g') ->
  compose_loop rest X m g = (Ok (fold_left dot ms m), g').
Proof.
  revert m ms g. induction rest as [| t rest IH]; intros m ms g H.
  - cbn in H. inversion H; subst. reflexivity.
  - cbn [call_all] in H. cbn [compose_loop]. unfold bind in *.
    destruct (call t X g) as [[mi | e] g1]; [| discriminate H].
    destruct (call_all rest X g1) as [[ms' | e] g2] eqn:E; [| discriminate H].
    unfold ret in H. inversion H; subst. cbn [fold_left].
    apply IH. exact E.
Qed.

(** When the objects answer the matrices M0, M1, ..., Mn, the loop builds
    ((M0 . M1) . M2) ... . Mn. *)
Lemma compose_matrices_product (transforms : list obj) (X : ndarray)
  (M0 : mat3) (Ms : list mat3) (g g' : rng) :
  call_all transforms X g = (Ok (M0 :: Ms), g') ->
  compose_matrices transforms X g = (Ok (fold_left dot Ms M0), g').
Proof.
  destruct transforms as [| t0 rest]; intros H.
  - cbn in H. inversion H.
  - cbn [call_all] in H. cbn [compose_matrices]. unfold bind in *.
    destruct (call t0 X g) as [[m | e] g1]; [| discriminate H].
    destruct (call_all rest X g1) as [[ms | e] g2] eqn:E; [| discriminate H].
    unfold ret in H. inversion H; subst.
    apply compose_loop_product. exact E.
Qed.

Lemma compose_matrices_single (f : ndarray -> M mat3) (X : ndarray)
  (M0 : mat3) (g g' : rng) :
  f X g = (Ok M0, g') ->
  compose_matrices [OCallable f] X g = (Ok M0, g').
Proof.
  intros H. apply (compose_matrices_product [OCallable f] X M0 [] g g').
  cbn [call_all call]. unfold bind, ret. rewrite H. reflexivity.
Qed.

(** Once the matrix is composed, it is the one matrix applied to the image
    and to the target, each with its own fill. *)
Lemma Affine_transform_applies_one_matrix
  (ndi_sample : string -> R -> ndarray -> R -> R -> R)
  (transforms : list obj) (fc : fill_cfg) (X y : ndarray) (m : mat3)
  (g g' : rng) :
  compose_matrices transforms X g = (Ok m, g') ->
  Affine_transform ndi_sample transforms fc X (Some y) g
  = (x' <~ apply_transform ndi_sample X m (fill_mode fc) (fill_value fc) (-1) ;;
     y' <~ apply_transform ndi_sample y m (target_fill_mode fc)
             (target_fill_value fc) (-1) ;;
     Ok (VPair x' y'), g')
  /\ Affine_transform ndi_sample transforms fc X None g
     = (x' <~ apply_transform ndi_sample X m (fill_mode fc) (fill_value fc)
                (-1) ;;
        Ok (VArr x'), g').
Proof.
  intros H. unfold Affine_transform, bind, lift. rewrite H.
  split; reflexivity.
Qed.

(** [AffineCompose] over two callables that answer M0 and M1: the image
    and the target are both transformed by M0 . M1, the image with the fill
    ['constant'] and the target with the fill ['nearest'] of the defaults. *)
Lemma AffineCompose_callables_pair
  (ndi_sample : string -> R -> ndarray -> R -> R -> R)
  (f0 f1 : ndarray -> M mat3) (M0 M1 : mat3) (X y : ndarray) (g : rng)
  (h w c h' w' c' : nat) :
  shape X = [h; w; S c] ->
  shape y = [h'; w'; S c'] ->
  (forall g, f0 X g = (Ok M0, g)) ->
  (forall g, f1 X g = (Ok M1, g)) ->
  let self := OAffineCompose [OCallable f0; OCallable f1] default_fill in
  AffineCompose_init [OCallable f0; OCallable f1] default_fill = Ok self
  /\ exists X' y',
    transform ndi_sample self X (Some y) g = (Ok (VPair X' y'), self, g)
    /\ transform ndi_sample self X None g = (Ok (VArr X'), self, g)
    /\ apply_transform ndi_sample X (dot M0 M1) "constant" 0 (-1) = Ok X'
    /\ apply_transform ndi_sample y (dot M0 M1) "nearest" 0 (-1) = Ok y'.
Proof.
  intros HX Hy H0 H1 self.
  assert (Hc : In "constant"%string ndi_modes)
    by (unfold ndi_modes; simpl; tauto).
  assert (Hn : In "nearest"%string ndi_modes) by (left; reflexivity).
  destruct (apply_transform_default_axis ndi_sample X (dot M0 M1) "constant"
              0 h w c HX Hc) as (X' & EX & _).
  destruct (apply_transform_default_axis ndi_sample y (dot M0 M1) "nearest"
              0 h' w' c' Hy Hn) as (y' & Ey & _).
  split; [reflexivity |].
  exists X', y'.
  assert (Hm : compose_matrices [OCallable f0; OCallable f1] X g
               = (Ok (dot M0 M1), g)).
  { apply (compose_matrices_product _ X M0 [M1] g g).
    cbn [call_all call]. unfold bind, ret. rewrite H0, H1. reflexivity. }
  destruct (Affine_transform_applies_one_matrix ndi_sample
              [OCallable f0; OCallable f1] default_fill X y (dot M0 M1) g g Hm)
    as [Epair Ealone].
  cbn [fill_mode fill_value target_fill_mode target_fill_value default_fill]
    in Epair, Ealone.
  rewrite EX in Epair, Ealone. rewrite Ey in Epair. cbn [rbind] in Epair, Ealone.
  unfold self. cbn [transform]. unfold keep.
  rewrite Epair, Ealone. repeat split; assumption.
Qed.

Lemma call_builder (o : obj) (X : ndarray) (g : rng) :
  is_builder o = true -> call o X g = (Raise TypeError, g).
Proof. destruct o; intros H; try discriminate H; reflexivity. Qed.

Lemma compose_matrices_builder_first (o : obj) (rest : list obj)
  (X : ndarray) (g : rng) :
  is_builder o = true ->
  compose_matrices (o :: rest) X g = (Raise TypeError, g).
Proof.
  intros H. cbn [compose_matrices]. unfold bind.
  rewrite (call_builder o X g H). reflexivity.
Qed.

(** C5: calling [transform] on an [Affine] or [AffineCompose] whose list of
    sub-transforms is empty raises ([IndexError], from
    [self.transforms[0]]); nothing is returned, the object and the random
    source are untouched.  [Affine()] with no range and [AffineCompose([])]
    are such objects. *)
Theorem empty_composer_raises
  (ndi_sample : string -> R -> ndarray -> R -> R -> R)
  (fc : fill_cfg) (X : ndarray) (y : option ndarray) (g : rng) :
  transform ndi_sample (OAffine [] fc) X y g
  = (Raise IndexError, OAffine [] fc, g)
  /\ transform ndi_sample (OAffineCompose [] fc) X y g
     = (Raise IndexError, OAffineCompose [] fc, g)
  /\ Affine_init PyNone PyNone PyNone PyNone fc = Ok (OAffine [] fc)
  /\ AffineCompose_init [] fc = Ok (OAffineCompose [] fc).
Proof.
  repeat split.
Qed.

(** C3 fails on the code: [Affine(rotation_range=10)] and
    [AffineCompose([Rotate(10)])] hold a [Rotate] instance, which line 170
    (line 226) calls; the call raises [TypeError], so [transform] with a
    target returns no pair, and without a target no image. *)
Theorem composer_with_target_raises
  (ndi_sample : string -> R -> ndarray -> R -> R -> R)
  (X y : ndarray) (g : rng) :
  let rot := ORotate (MkRotate (PyInt 10) default_fill true) in
  Affine_init (PyInt 10) PyNone PyNone PyNone default_fill
  = Ok (OAffine [rot] default_fill)
  /\ AffineCompose_init [ORotate (Rotate_init (PyInt 10) default_fill false)]
       default_fill
     = Ok (OAffineCompose [rot] default_fill)
  /\ transform ndi_sample (OAffine [rot] default_fill) X (Some y) g
     = (Raise TypeError, OAffine [rot] default_fill, g)
  /\ transform ndi_sample (OAffineCompose [rot] default_fill) X (Some y) g
     = (Raise TypeError, OAffineCompose [rot] default_fill, g)
  /\ transform ndi_sample (OAffine [rot] default_fill) X None g
     = (Raise TypeError, OAffine [rot] default_fill, g).
Proof.
  repeat split.
Qed.

Lemma Affine_init_builders (rr tr sr zr : pyval) (fc fc' : fill_cfg)
  (transforms : list obj) :
  Affine_init rr tr sr zr fc = Ok (OAffine transforms fc') ->
  forallb is_builder transforms = true.
Proof.
  unfold Affine_init.
  destruct (truthy rr), (truthy tr), (Translate_init tr default_fill true),
    (truthy sr), (truthy zr), (Zoom_init zr default_fill true);
    cbn; intros H; inversion H; reflexivity.
Qed.

(** C4 fails on the code: whatever ranges [Affine] is constructed with, the
    sub-transforms it holds are builder instances, and [transform] raises —
    [IndexError] when there is none, [TypeError] from calling the first one
    otherwise; with exactly one sub-transform no matrix M0 is composed. *)
Theorem Affine_transform_always_raises
  (ndi_sample : string -> R -> ndarray -> R -> R -> R)
  (rr tr sr zr : pyval) (fc : fill_cfg) (X : ndarray) (y : option ndarray)
  (g : rng) :
  match Affine_init rr tr sr zr fc with
  | Ok self =>
      match self with
      | OAffine [] _ =>
          transform ndi_sample self X y g = (Raise IndexError, self, g)
      | OAffine (_ :: _) _ =>
          transform ndi_sample self X y g = (Raise TypeError, self, g)
      | _ => False
      end
  | Raise _ => True
  end
  /\ compose_matrices [ORotate (MkRotate (PyInt 10) default_fill true)] X g
     = (Raise TypeError, g).
Proof.
  split; [| reflexivity].
  destruct (Affine_init rr tr sr zr fc) as [self | e] eqn:E; [| exact I].
  assert (Hs : exists ts fc', self = OAffine ts fc').
  { unfold Affine_init in E.
    destruct (truthy rr), (truthy tr), (Translate_init tr default_fill true),
      (truthy sr), (truthy zr), (Zoom_init zr default_fill true);
      cbn in E; inversion E; eexists _, _; reflexivity. }
  destruct Hs as (ts & fc' & ->).
  pose proof (Affine_init_builders _ _ _ _ _ _ _ E) as Hb.
  destruct ts as [| t ts]; [reflexivity |].
  cbn [forallb] in Hb. apply andb_prop in Hb. destruct Hb as [Hb _].
  cbn [transform]. unfold keep, Affine_transform, bind.
  rewrite (compose_matrices_builder_first t ts X g Hb). reflexivity.
Qed.

(** With caller-supplied callables the loop does multiply in the declared
    order, and a single callable gives its own matrix. *)
Lemma compose_matrices_three (f0 f1 f2 : ndarray -> M mat3) (X : ndarray)
  (M0 M1 M2 : mat3) (g : rng) :
  (forall g, f0 X g = (Ok M0, g)) ->
  (forall g, f1 X g = (Ok M1, g)) ->
  (forall g, f2 X g = (Ok M2, g)) ->
  compose_matrices [OCallable f0; OCallable f1; OCallable f2] X g
  = (Ok (dot (dot M0 M1) M2), g).
Proof.
  intros H0 H1 H2.
  apply (compose_matrices_product _ X M0 [M1; M2] g g).
  cbn [call_all call]. unfold bind, ret. rewrite H0, H1, H2. reflexivity.
Qed.

(** ** The simple transforms and the objects' attributes *)

Lemma Rtrunc_IZR (z : Z) : Rtrunc (IZR z) = z.
Proof.
  unfold Rtrunc. destruct (Rle_dec 0 (IZR z)).
  - apply ZfloorZ.
  - unfold Zceil. rewrite ZfloorNZ. lia.
Qed.

Lemma ToCategorical_set (k : Z) (X : ndarray) :
  k <> 0%Z ->
  snd (ToCategorical_transform (Some k) X) = Some k.
Proof.
  intros Hk. unfold ToCategorical_transform.
  destruct (k =? 0)%Z eqn:E; [apply Z.eqb_eq in E; contradiction |].
  reflexivity.
Qed.

(** When [num_classes] is unset and the input is not empty, the call stores
    the largest label plus one, an [int64]. *)
Lemma ToCategorical_unset (X : ndarray) (x0 : Z) (xs : list Z) :
  map Rtrunc (ravel X) = x0 :: xs ->
  snd (ToCategorical_transform None X)
  = Some (wrap_int64 (fold_left Z.max xs x0 + 1))
  /\ snd (ToCategorical_transform (Some 0%Z) X)
     = Some (wrap_int64 (fold_left Z.max xs x0 + 1)).
Proof.
  intros H. unfold ToCategorical_transform. rewrite H. split; reflexivity.
Qed.

Lemma ToCategorical_empty (nc : option Z) (X : ndarray) :
  map Rtrunc (ravel X) = [] ->
  snd (ToCategorical_transform nc X) = nc.
Proof.
  intros H. unfold ToCategorical_transform. rewrite H.
  destruct nc as [k |]; [destruct (k =? 0)%Z |]; reflexivity.
Qed.

Lemma wrap_int64_small (z : Z) :
  (- 2 ^ 63 <= z < 2 ^ 63)%Z -> wrap_int64 z = z.
Proof.
  intros H. unfold wrap_int64. rewrite Z.mod_small by lia. lia.
Qed.


Lemma fold_max_in (xs : list Z) (x0 : Z) :
  In (fold_left Z.max xs x0) (x0 :: xs).
Proof.
  revert x0. induction xs as [| a xs IH]; intros x0; [left; reflexivity |].
  cbn [fold_left]. destruct (IH (Z.max x0 a)) as [H | H].
  - rewrite <- H. destruct (Z.max_spec x0 a) as [[_ E] | [_ E]]; rewrite E.
    + right. left. reflexivity.
    + left. reflexivity.
  - right. right. exact H.
Qed.

(** For non-negative labels below 2^63 - 1 the sum does not wrap and is
    positive. *)
Lemma inferred_classes (xs : list Z) (x0 : Z) :
  Forall (fun x => (0 <= x < 2 ^ 63 - 1)%Z) (x0 :: xs) ->
  wrap_int64 (fold_left Z.max xs x0 + 1) = (fold_left Z.max xs x0 + 1)%Z
  /\ (0 < fold_left Z.max xs x0 + 1)%Z.
Proof.
  intros H. rewrite Forall_forall in H.
  pose proof (H _ (fold_max_in xs x0)) as Hm. cbv beta in Hm.
  split; [apply wrap_int64_small |]; lia.
Qed.

Lemma ravel_labels_021 : map Rtrunc (ravel labels_021) = [0; 2; 1]%Z.
Proof.
  unfold ravel, labels_021, array_of. cbn. rewrite !Rtrunc_IZR. reflexivity.
Qed.

Lemma ravel_labels_01 : map Rtrunc (ravel labels_01) = [0; 1]%Z.
Proof.
  unfold ravel, labels_01, array_of. cbn. rewrite !Rtrunc_IZR. reflexivity.
Qed.

Section Attributes.

Variable ndi_sample : string -> R -> ndarray -> R -> R -> R.

Lemma keep_object (o : obj) (m : M value) (g : rng) :
  object_after (keep o m g) = o.
Proof. unfold keep, object_after. destruct (m g). reflexivity. Qed.

Lemma stable_object_unchanged :
  forall (self : obj) (X : ndarray) (y : option ndarray) (g : rng),
    stable self = true ->
    object_after (transform ndi_sample self X y g) = self.
Proof.
  fix IH 1. intros self X y g Hst.
  destruct self as [transforms | fn | axis | num_classes | dt | ts fc | ts fc
                   | r | t | s | z | f | f];
    try reflexivity; try apply keep_object.
  - (* Compose *)
    cbn [transform].
    set (loop := fix loop (txs : list obj) (X : value) (g : rng)
                   : result value * list obj * rng := _).
    assert (Hloop : forall v g0, snd (fst (loop transforms v g0)) = transforms).
    { clear X y g. cbn [stable] in Hst. revert Hst. generalize transforms.
      fix IHl 1. intros txs Hall v g0.
      destruct txs as [| tx txs']; [reflexivity |].
      cbn [forallb] in Hall. apply andb_prop in Hall.
      destruct Hall as [Htx Hrest].
      cbn [loop]. fold loop.
      destruct (as_input v) as [X' | e]; [| reflexivity].
      pose proof (IH tx X' None g0 Htx) as Hobj.
      unfold object_after in Hobj.
      destruct (transform ndi_sample tx X' None g0) as [[[v' | e] tx'] g1];
        cbn [fst snd] in Hobj; subst tx'.
      - pose proof (IHl txs' Hrest v' g1) as Hl.
        destruct (loop txs' v' g1) as [[r txs''] g2].
        cbn [fst snd] in Hl. subst txs''. reflexivity.
      - reflexivity. }
    specialize (Hloop (VArr X) g).
    destruct (loop transforms (VArr X) g) as [[r txs'] g'].
    cbn [fst snd] in Hloop. subst txs'. reflexivity.
  - (* ToCategorical *)
    cbn [transform]. cbn [stable] in Hst.
    destruct num_classes as [k |]; [| discriminate Hst].
    assert (Hk : k <> 0%Z).
    { intros ->. discriminate Hst. }
    pose proof (ToCategorical_set k X Hk) as Hsnd.
    destruct (ToCategorical_transform (Some k) X) as [r nc].
    cbn [snd] in Hsnd. subst nc. reflexivity.
Qed.

End Attributes.

(** C9, as amended: [transform] leaves the attributes of its object as they
    were for every object of the library except a [ToCategorical] whose
    [num_classes] is unset ([None] or 0), alone or as a step of a [Compose].
    Such a [ToCategorical], called on a non-empty input, stores the [int64]
    sum of the largest label and one in [self.num_classes]; when the stored
    value is not 0, as it is whenever the labels are non-negative and below
    2^63 - 1, it stays through every following call; on an input without
    elements nothing is stored. *)
Theorem transform_keeps_attributes_when_stable
  (ndi_sample : string -> R -> ndarray -> R -> R -> R) :
  (forall (self : obj) (X : ndarray) (y : option ndarray) (g : rng),
     stable self = true ->
     object_after (transform ndi_sample self X y g) = self)
  /\ (forall (nc : option Z) (X : ndarray) (y : option ndarray) (g : rng)
        (x0 : Z) (xs : list Z),
        nc = None \/ nc = Some 0%Z ->
        map Rtrunc (ravel X) = x0 :: xs ->
        let k := wrap_int64 (fold_left Z.max xs x0 + 1) in
        object_after (transform ndi_sample (OToCategorical nc) X y g)
        = OToCategorical (Some k)
        /\ (k <> 0%Z ->
            forall X' y' g',
              object_after
                (transform ndi_sample (OToCategorical (Some k)) X' y' g')
              = OToCategorical (Some k))
        /\ (Forall (fun x => (0 <= x < 2 ^ 63 - 1)%Z) (x0 :: xs) ->
            k = (fold_left Z.max xs x0 + 1)%Z /\ k <> 0%Z))
  /\ (forall (nc : option Z) (X : ndarray) (y : option ndarray) (g : rng),
        map Rtrunc (ravel X) = [] ->
        object_after (transform ndi_sample (OToCategorical nc) X y g)
        = OToCategorical nc).
Proof.
  split; [apply stable_object_unchanged |]. split.
  - intros nc X y g x0 xs Hnc H k. split; [| split].
    + cbn [transform].
      destruct (ToCategorical_unset X x0 xs H) as [Hnone Hzero].
      assert (Hsnd : snd (ToCategorical_transform nc X) = Some k)
        by (destruct Hnc as [-> | ->]; assumption).
      destruct (ToCategorical_transform nc X) as [r nc'].
      cbn [snd] in Hsnd. subst nc'. reflexivity.
    + intros Hk X' y' g'. apply stable_object_unchanged.
      cbn [stable]. destruct (k =? 0)%Z eqn:E; [| reflexivity].
      apply Z.eqb_eq in E. contradiction.
    + intros Hall. destruct (inferred_classes xs x0 Hall) as [Hw Hpos].
      unfold k. rewrite Hw. split; [reflexivity | lia].
  - intros nc X y g H. cbn [transform].
    pose proof (ToCategorical_empty nc X H) as Hsnd.
    destruct (ToCategorical_transform nc X) as [r nc'].
    cbn [snd] in Hsnd. subst nc'. reflexivity.
Qed.

(** A pipeline of a cast, a [ToCategorical] with three classes and a lazy
    [Translate] is unchanged by a call; [ToCategorical()] on the labels
    [0, 2, 1] ends with [num_classes] 3, which then stays. *)
Lemma transform_keeps_attributes_when_stable_witness :
  let pipeline :=
    OCompose [OTypeCast Float64; OToCategorical (Some 3%Z);
              OTranslate (MkTranslate (PyInt 0) (PyFloat 0.1) default_fill
                            true)] in
  stable pipeline = true
  /\ object_after (transform nearest_sample pipeline labels_021 None
                     quarter_rng) = pipeline
  /\ object_after (transform nearest_sample (OToCategorical None) labels_021
                     None quarter_rng) = OToCategorical (Some 3%Z)
  /\ object_after (transform nearest_sample (OToCategorical (Some 3%Z))
                     labels_01 None quarter_rng) = OToCategorical (Some 3%Z).
Proof.
  intros pipeline. split; [reflexivity |].
  destruct (transform_keeps_attributes_when_stable nearest_sample)
    as (Hstable & Hunset & _).
  split; [apply Hstable; reflexivity |].
  destruct (Hunset None labels_021 None quarter_rng 0%Z [2; 1]%Z
              (or_introl eq_refl) ravel_labels_021) as (Hstored & Hstays & _).
  split; [exact Hstored |].
  apply (Hstays ltac:(discriminate)).
Defined.

(** C9 fails as stated: [ToCategorical()] is constructed with
    [num_classes = None]; its first call, on the labels [0, 2, 1], leaves
    [num_classes = 3] in the object, and the second call, on the labels
    [0, 1], encodes with three classes where a fresh object encodes the
    same labels with two. *)
Lemma ToCategorical_transform_writes_attribute :
  let first := transform nearest_sample (OToCategorical None) labels_021 None
                 quarter_rng in
  let second := transform nearest_sample (object_after first) labels_01 None
                  (rng_after first) in
  let fresh := transform nearest_sample (OToCategorical None) labels_01 None
                 quarter_rng in
  object_after first = OToCategorical (Some 3%Z)
  /\ object_after first <> OToCategorical None
  /\ (exists a, result_of second = Ok (VArr a) /\ shape a = [2; 3]%nat)
  /\ (exists a, result_of fresh = Ok (VArr a) /\ shape a = [2; 2]%nat).
Proof.
  cbn zeta.
  assert (E1 : ToCategorical_transform None labels_021
               = (one_hot [0; 2; 1]%Z 3, Some 3%Z)).
  { unfold ToCategorical_transform. rewrite ravel_labels_021. reflexivity. }
  assert (E2 : ToCategorical_transform (Some 3%Z) labels_01
               = (one_hot [0; 1]%Z 3, Some 3%Z)).
  { unfold ToCategorical_transform. rewrite ravel_labels_01. reflexivity. }
  assert (E3 : ToCategorical_transform None labels_01
               = (one_hot [0; 1]%Z 2, Some 2%Z)).
  { unfold ToCategorical_transform. rewrite ravel_labels_01. reflexivity. }
  cbn [transform]. rewrite E1. cbn [object_after rng_after fst snd].
  split; [reflexivity |]. split; [discriminate |].
  cbn [transform]. rewrite E2, E3. unfold result_of. cbn [fst].
  split; eexists; (split; [reflexivity | reflexivity]).
Qed.

(** * Part III: further properties of the module *)

(** ** Centering and the positions [apply_transform] reads *)

(** X1: centering commutes with the matrix product: the centred form of
    A . B is the product of the centred forms of A and B, and the identity
    is its own centred form, for every pair of dimensions. *)
Theorem offset_center_multiplicative (A B : mat3) (x y : R) :
  transform_matrix_offset_center (dot A B) x y
  = dot (transform_matrix_offset_center A x y)
        (transform_matrix_offset_center B x y)
  /\ transform_matrix_offset_center identity x y = identity.
Proof.
  split.
  - unfold transform_matrix_offset_center. apply mat3_eq; simpl; ring.
  - apply offset_center_identity.
Qed.

Lemma centred_point (M : mat3) (x y px py : R) :
  affine_form M ->
  let o_x := x / 2 + 0.5 in
  let o_y := y / 2 + 0.5 in
  apply_point (transform_matrix_offset_center M x y) px py
  = (o_x + (m00 M * (px - o_x) + m01 M * (py - o_y)) + m02 M,
     o_y + (m10 M * (px - o_x) + m11 M * (py - o_y)) + m12 M).
Proof.
  intros (H0 & H1 & H2) o_x o_y.
  unfold apply_point, transform_matrix_offset_center. simpl.
  rewrite H0, H1, H2. fold o_x o_y. f_equal; ring.
Qed.

(** X2: for a matrix M with last row [0, 0, 1], [apply_transform] reads the
    output pixel (i, j) of every channel at the position
    centre + L . ((i, j) - centre) + t of that channel, where L is the 2x2
    block of M, t its last column and centre = (h/2 + 0.5, w/2 + 0.5): the
    linear part acts about the centre and the same position is used for
    every channel. *)
Theorem apply_transform_reads_about_centre
  (ndi_sample : string -> R -> ndarray -> R -> R -> R)
  (x : ndarray) (M : mat3) (mode : string) (cval : R) (h w c : nat) :
  shape x = [h; w; S c] ->
  In mode ndi_modes ->
  affine_form M ->
  let o_x := INR h / 2 + 0.5 in
  let o_y := INR w / 2 + 0.5 in
  exists r,
    apply_transform ndi_sample x M mode cval (-1) = Ok r
    /\ forall k i j,
         (k < S c)%nat -> (i < h)%nat -> (j < w)%nat ->
         data r [k; i; j]
         = ndi_sample mode cval
             (subarray (astype (transpose x [2; 0; 1]%nat) Float32) k)
             (o_x + (m00 M * (INR i - o_x) + m01 M * (INR j - o_y)) + m02 M)
             (o_y + (m10 M * (INR i - o_x) + m11 M * (INR j - o_y)) + m12 M).
Proof.
  intros Hs Hm Haff o_x o_y.
  destruct (apply_transform_default_axis ndi_sample x M mode cval h w c Hs Hm)
    as (r & E & Hd & Hsh & Hdat).
  exists r. split; [exact E |].
  intros k i j Hk Hi Hj.
  assert (Hs' : shape (astype (transpose x [2; 0; 1]%nat) Float32)
                = [S c; h; w]) by (simpl; rewrite Hs; reflexivity).
  assert (Hsr : shape r = [S c; h; w]) by (rewrite Hsh; exact Hs').
  rewrite Hdat by (rewrite Hsr; apply indices3_in; assumption).
  unfold resample_channels. cbn [data]. rewrite Hs'. cbn [nth].
  unfold resample_channel. cbn [data].
  pose proof (centred_point M (INR h) (INR w) (INR i) (INR j) Haff) as Hp.
  cbv zeta in Hp. unfold apply_point in Hp. fold o_x o_y in Hp.
  pose proof (f_equal fst Hp) as Hp0. pose proof (f_equal snd Hp) as Hp1.
  cbn [fst snd] in Hp0, Hp1.
  unfold upper_left, last_column. cbn [a00 a01 a10 a11 fst snd].
  rewrite Hp0, Hp1. reflexivity.
Qed.

(** A rotation by a quarter turn about the centre of a 4x5x3 image. *)
Lemma apply_transform_reads_about_centre_witness :
  affine_form (Mat3 0 (-1) 0 1 0 0 0 0 1)
  /\ exists r,
       apply_transform nearest_sample (blank [4; 5; 3]%nat)
         (Mat3 0 (-1) 0 1 0 0 0 0 1) "constant" 0 (-1) = Ok r.
Proof.
  assert (Haff : affine_form (Mat3 0 (-1) 0 1 0 0 0 0 1))
    by (repeat split).
  assert (Hm : In "constant"%string ndi_modes)
    by (unfold ndi_modes; simpl; tauto).
  split; [exact Haff |].
  destruct (apply_transform_reads_about_centre nearest_sample
              (blank [4; 5; 3]%nat) (Mat3 0 (-1) 0 1 0 0 0 0 1) "constant" 0
              4 5 2 eq_refl Hm Haff) as (r & E & _).
  exists r. exact E.
Defined.

(** ** The matrices the builders sample *)

Lemma uniform_symmetric_abs (r u : R) :
  0 <= u <= 1 -> Rabs (uniform_value (- r) r u) <= Rabs r.
Proof.
  intros [Hu0 Hu1]. unfold uniform_value.
  unfold Rabs. destruct (Rcase_abs (- r + (r - - r) * u)), (Rcase_abs r); nra.
Qed.

Lemma uniform_between (l h u : R) :
  0 <= u <= 1 -> Rmin l h <= uniform_value l h u <= Rmax l h.
Proof.
  intros [Hu0 Hu1]. unfold uniform_value, Rmin, Rmax.
  destruct (Rle_dec l h); split; nra.
Qed.

(** X3: for every numeric [rotation_range] r, [Rotate.transform] makes
    exactly one draw and builds a rotation matrix: last row [0, 0, 1], no
    translation, orthonormal columns and determinant 1; the angle is
    pi/180 times a number of degrees whose absolute value is at most |r|. *)
Theorem Rotate_matrix_is_rotation (self : Rotate) (g : rng) (r : R) :
  as_num (rotation_range self) = Ok r ->
  let degree := uniform_value (- r) r (stream g (drawn g)) in
  exists m,
    Rotate_matrix self g = (Ok m, Rng (stream g) (S (drawn g)))
    /\ affine_form m
    /\ m02 m = 0 /\ m12 m = 0
    /\ m00 m = cos (PI / 180 * degree) /\ m10 m = sin (PI / 180 * degree)
    /\ m00 m * m00 m + m10 m * m10 m = 1
    /\ m01 m * m01 m + m11 m * m11 m = 1
    /\ m00 m * m01 m + m10 m * m11 m = 0
    /\ det2 m = 1
    /\ (0 <= stream g (drawn g) <= 1 -> Rabs degree <= Rabs r).
Proof.
  intros Hr degree.
  eexists. split.
  - unfold Rotate_matrix, bind, lift. rewrite Hr.
    rewrite random_uniform_eq. unfold ret. reflexivity.
  - fold degree. set (theta := PI / 180 * degree).
    pose proof (sin2_cos2 theta) as Hsc. unfold Rsqr in Hsc.
    unfold affine_form, det2. cbn [m00 m01 m02 m10 m11 m12 m20 m21 m22].
    repeat split; try reflexivity; try nra.
    intros Hu. apply uniform_symmetric_abs. exact Hu.
Qed.

(** [Rotate(30)] with a first draw of 1/4. *)
Lemma Rotate_matrix_is_rotation_witness :
  exists m,
    Rotate_matrix (MkRotate (PyInt 30) default_fill true) quarter_rng
    = (Ok m, Rng (stream quarter_rng) 1)
    /\ det2 m = 1.
Proof.
  destruct (Rotate_matrix_is_rotation
              (MkRotate (PyInt 30) default_fill true) quarter_rng 30 eq_refl)
    as (m & E & _ & _ & _ & _ & _ & _ & _ & _ & Hdet & _).
  exists m. split; [exact E | exact Hdet].
Defined.

(** X4: for every numeric [shear_range] r, [Shear.transform] makes exactly
    one draw s with |s| <= |r| and builds a matrix with last row [0, 0, 1]
    and no translation that leaves the point (1, 0) where it is and has
    determinant cos(s); when |r| < pi/2 the determinant is positive, so the
    matrix is invertible. *)
Theorem Shear_matrix_properties (self : Shear) (g : rng) (r : R) :
  as_num (shear_range self) = Ok r ->
  let s := uniform_value (- r) r (stream g (drawn g)) in
  exists m,
    Shear_matrix self g = (Ok m, Rng (stream g) (S (drawn g)))
    /\ affine_form m
    /\ m02 m = 0 /\ m12 m = 0
    /\ apply_point m 1 0 = (1, 0)
    /\ m01 m = - sin s
    /\ det2 m = cos s
    /\ (0 <= stream g (drawn g) <= 1 -> Rabs s <= Rabs r)
    /\ (0 <= stream g (drawn g) <= 1 -> Rabs r < PI / 2 -> 0 < det2 m).
Proof.
  intros Hr s.
  eexists. split.
  - unfold Shear_matrix, bind, lift. rewrite Hr.
    rewrite random_uniform_eq. unfold ret. reflexivity.
  - fold s. unfold affine_form, det2, apply_point.
    cbn [m00 m01 m02 m10 m11 m12 m20 m21 m22].
    split; [repeat split |]. split; [reflexivity |]. split; [reflexivity |].
    split; [f_equal; ring |]. split; [reflexivity |]. split; [ring |].
    split.
    + intros Hu. apply uniform_symmetric_abs. exact Hu.
    + intros Hu Hlt.
      pose proof (uniform_symmetric_abs r _ Hu) as Hs. fold s in Hs.
      assert (Hs' : Rabs s < PI / 2) by lra.
      apply Rabs_def2 in Hs'. destruct Hs' as [Hlo Hhi].
      replace (1 * cos s - - sin s * 0) with (cos s) by ring.
      apply cos_gt_0; lra.
Qed.

(** [Shear(0.3)] with a first draw of 1/4. *)
Lemma Shear_matrix_properties_witness :
  exists m,
    Shear_matrix (MkShear (PyFloat 0.3) default_fill true) quarter_rng
    = (Ok m, Rng (stream quarter_rng) 1)
    /\ apply_point m 1 0 = (1, 0).
Proof.
  destruct (Shear_matrix_properties
              (MkShear (PyFloat 0.3) default_fill true) quarter_rng 0.3 eq_refl)
    as (m & E & _ & _ & _ & Hp & _).
  exists m. split; [exact E | exact Hp].
Defined.

(** X5: for a [zoom_range] of two numbers l and h, [Zoom.transform] makes
    two draws, the first for zx and the second for zy, so the two factors
    are sampled independently; each lies between min(l, h) and max(l, h),
    and the matrix is the diagonal matrix of zx, zy and 1. *)
Theorem Zoom_factors_independent_and_bounded (zr : pyval) (fc : fill_cfg)
  (lazy : bool) (lo hi : pyval) (l h : R) (g : rng) :
  zr = PyTuple [lo; hi] \/ zr = PyList [lo; hi] ->
  as_num lo = Ok l ->
  as_num hi = Ok h ->
  let u0 := stream g (drawn g) in
  let u1 := stream g (S (drawn g)) in
  exists zx zy,
    Zoom_matrix (MkZoom zr fc lazy) g
    = (Ok (Mat3 zx 0 0 0 zy 0 0 0 1), Rng (stream g) (S (S (drawn g))))
    /\ zx = uniform_value l h u0
    /\ zy = uniform_value l h u1
    /\ (0 <= u0 <= 1 -> Rmin l h <= zx <= Rmax l h)
    /\ (0 <= u1 <= 1 -> Rmin l h <= zy <= Rmax l h)
    /\ (l = h -> zx = l /\ zy = l).
Proof.
  intros Hzr Hlo Hhi u0 u1.
  exists (uniform_value l h u0), (uniform_value l h u1).
  split; [apply (Zoom_matrix_numeric zr fc lazy lo hi l h g Hzr Hlo Hhi) |].
  split; [reflexivity |]. split; [reflexivity |].
  split; [apply uniform_between |]. split; [apply uniform_between |].
  intros ->. split; apply uniform_value_degenerate.
Qed.

(** [Zoom((0.7, 1.4))]. *)
Lemma Zoom_factors_independent_and_bounded_witness :
  exists zx zy,
    Zoom_matrix (MkZoom (PyTuple [PyFloat 0.7; PyFloat 1.4]) default_fill true)
      quarter_rng
    = (Ok (Mat3 zx 0 0 0 zy 0 0 0 1), Rng (stream quarter_rng) 2)
    /\ Rmin 0.7 1.4 <= zx <= Rmax 0.7 1.4.
Proof.
  destruct (Zoom_factors_independent_and_bounded
              (PyTuple [PyFloat 0.7; PyFloat 1.4]) default_fill true
              (PyFloat 0.7) (PyFloat 1.4) 0.7 1.4 quarter_rng
              (or_introl eq_refl) eq_refl eq_refl)
    as (zx & zy & E & _ & _ & Hb & _).
  exists zx, zy. split; [exact E |].
  apply Hb. cbn [quarter_rng stream drawn]. lra.
Defined.

(** ** What the constructors accept and what transform then does *)

Lemma transform_of_matrix_tail
  (ndi_sample : string -> R -> ndarray -> R -> R -> R)
  (mk : M mat3) (lazy : bool) (fc : fill_cfg) (X : ndarray)
  (y : option ndarray) (g : rng) :
  bind mk (fun m => if lazy then ret (VMat m)
                    else lift (apply_to ndi_sample fc X y m)) g
  = match mk g with
    | (Ok m, g') =>
        (if lazy then Ok (VMat m) else apply_to ndi_sample fc X y m, g')
    | (Raise e, g') => (Raise e, g')
    end.
Proof.
  unfold bind. destruct (mk g) as [[m | e] g']; [| reflexivity].
  destruct lazy; reflexivity.
Qed.

Lemma Zoom_draw_non_numeric (fc : fill_cfg) (lazy : bool) (v w : pyval)
  (g : rng) :
  as_num v = Raise TypeError ->
  Zoom_draw (MkZoom (PyTuple [v; w]) fc lazy) g = (Raise TypeError, g)
  /\ Zoom_draw (MkZoom (PyTuple [w; v]) fc lazy) g = (Raise TypeError, g).
Proof.
  intros Hv. unfold Zoom_draw, bind, lift. cbn [zoom_range subscript nth_error].
  rewrite Hv. split.
  - destruct (as_num w) as [x | e] eqn:E; [reflexivity |].
    destruct w; cbn in E; inversion E; reflexivity.
  - reflexivity.
Qed.

(** X6: a range that is not a number is accepted by the constructors of
    [Rotate], [Shear], [Translate] (in either position of the pair) and
    [Zoom] (in either position of the pair), and so is a [zoom_range] with
    fewer than two elements; the error comes at the first call of
    [transform], which raises [TypeError] (respectively [IndexError]) and
    leaves the object as it was. No draw is made before the error, with one
    exception: when the non-number is [Translate]'s width fraction and the
    height fraction is a positive number, the height's one draw is made
    first. *)
Theorem builder_range_errors_are_deferred
  (ndi_sample : string -> R -> ndarray -> R -> R -> R)
  (v w : pyval) (fc : fill_cfg) (lazy : bool) (X : ndarray)
  (y : option ndarray) (g : rng) :
  as_num v = Raise TypeError ->
  transform ndi_sample (ORotate (Rotate_init v fc lazy)) X y g
  = (Raise TypeError, ORotate (Rotate_init v fc lazy), g)
  /\ transform ndi_sample (OShear (Shear_init v fc lazy)) X y g
     = (Raise TypeError, OShear (Shear_init v fc lazy), g)
  /\ Translate_init (PyTuple [v; w]) fc lazy = Ok (MkTranslate v w fc lazy)
  /\ transform ndi_sample (OTranslate (MkTranslate v w fc lazy)) X y g
     = (Raise TypeError, OTranslate (MkTranslate v w fc lazy), g)
  /\ Translate_init (PyTuple [w; v]) fc lazy = Ok (MkTranslate w v fc lazy)
  /\ (forall (f : R) (H : nat),
        as_num w = Ok f -> shape_at X 0 = Ok H ->
        transform ndi_sample (OTranslate (MkTranslate w v fc lazy)) X y g
        = (Raise TypeError, OTranslate (MkTranslate w v fc lazy),
           Rng (stream g) (drawn g + draws_for f)))
  /\ Zoom_init (PyTuple [v; w]) fc lazy = Ok (MkZoom (PyTuple [v; w]) fc lazy)
  /\ transform ndi_sample (OZoom (MkZoom (PyTuple [v; w]) fc lazy)) X y g
     = (Raise TypeError, OZoom (MkZoom (PyTuple [v; w]) fc lazy), g)
  /\ transform ndi_sample (OZoom (MkZoom (PyTuple [w; v]) fc lazy)) X y g
     = (Raise TypeError, OZoom (MkZoom (PyTuple [w; v]) fc lazy), g)
  /\ Zoom_init (PyTuple [w]) fc lazy = Ok (MkZoom (PyTuple [w]) fc lazy)
  /\ transform ndi_sample (OZoom (MkZoom (PyTuple [w]) fc lazy)) X y g
     = (Raise IndexError, OZoom (MkZoom (PyTuple [w]) fc lazy), g)
  /\ Zoom_init (PyList []) fc lazy = Ok (MkZoom (PyList []) fc lazy)
  /\ transform ndi_sample (OZoom (MkZoom (PyList []) fc lazy)) X y g
     = (Raise IndexError, OZoom (MkZoom (PyList []) fc lazy), g).
Proof.
  intros Hv.
  destruct (Zoom_draw_non_numeric fc lazy v w g Hv) as [Hz1 Hz2].
  split; [| split; [| split; [reflexivity |]]].
  - cbn [transform]. unfold keep, Rotate_transform.
    rewrite transform_of_matrix_tail.
    unfold Rotate_matrix, Rotate_init, bind, lift. cbn [rotation_range].
    rewrite Hv. reflexivity.
  - cbn [transform]. unfold keep, Shear_transform.
    rewrite transform_of_matrix_tail.
    unfold Shear_matrix, Shear_init, bind, lift. cbn [shear_range].
    rewrite Hv. reflexivity.
  - split; [| split; [reflexivity |]].
    + cbn [transform]. unfold keep, Translate_transform.
      rewrite transform_of_matrix_tail.
      unfold Translate_matrix, bind, lift. cbn [height_range].
      rewrite Hv. reflexivity.
    + split.
      * intros f H Hw HH. cbn [transform]. unfold keep, Translate_transform.
        rewrite transform_of_matrix_tail. destruct g as [st k].
        unfold Translate_matrix, bind, lift, ret, draws_for.
        cbn [height_range width_range]. rewrite Hw, Hv.
        destruct (Rlt_dec 0 f);
          rewrite ?random_uniform_eq, ?HH; cbn [stream drawn];
          rewrite ?Nat.add_0_r, ?Nat.add_1_r; reflexivity.
      * split; [reflexivity |]. split; [| split].
        -- cbn [transform]. unfold keep, Zoom_transform.
           rewrite transform_of_matrix_tail.
           unfold Zoom_matrix, bind. rewrite Hz1. reflexivity.
        -- cbn [transform]. unfold keep, Zoom_transform.
           rewrite transform_of_matrix_tail.
           unfold Zoom_matrix, bind. rewrite Hz2. reflexivity.
        -- repeat split.
Qed.

(** [Rotate(None)], [Translate((0.5, None))] on a 4x5x3 image, and
    [Zoom((0.5,))]. *)
Lemma builder_range_errors_are_deferred_witness :
  result_of (transform nearest_sample (ORotate (Rotate_init PyNone
               default_fill false)) (blank [4; 5; 3]%nat) None quarter_rng)
  = Raise TypeError
  /\ transform nearest_sample
       (OTranslate (MkTranslate (PyFloat (/ 2)) PyNone default_fill false))
       (blank [4; 5; 3]%nat) None quarter_rng
     = (Raise TypeError,
        OTranslate (MkTranslate (PyFloat (/ 2)) PyNone default_fill false),
        Rng (stream quarter_rng) 1)
  /\ result_of (transform nearest_sample
                  (OZoom (MkZoom (PyTuple [PyFloat (/ 2)]) default_fill false))
                  (blank [4; 5; 3]%nat) None quarter_rng)
     = Raise IndexError.
Proof.
  pose proof (builder_range_errors_are_deferred nearest_sample PyNone
                (PyFloat (/ 2)) default_fill false (blank [4; 5; 3]%nat) None
                quarter_rng eq_refl)
    as (H1 & _ & _ & _ & _ & Hw & _ & _ & _ & _ & H2 & _).
  rewrite H1, H2. split; [reflexivity |]. split; [| reflexivity].
  rewrite (Hw (/ 2) 4%nat eq_refl eq_refl).
  rewrite draws_for_pos by lra. reflexivity.
Defined.

Lemma Translate_init_lazy (v : pyval) (fc : fill_cfg) (lazy : bool)
  (t : Translate) :
  Translate_init v fc lazy = Ok t ->
  translate_lazy t = lazy /\ translate_fill t = fc.
Proof.
  unfold Translate_init.
  destruct (subscript _ 0) as [hr | e]; [| discriminate].
  cbn [rbind]. destruct (subscript _ 1) as [wr | e]; [| discriminate].
  cbn [rbind]. intros H. inversion H. split; reflexivity.
Qed.

Lemma Zoom_init_lazy (v : pyval) (fc : fill_cfg) (lazy : bool) (z : Zoom) :
  Zoom_init v fc lazy = Ok z ->
  zoom_lazy z = lazy /\ zoom_fill z = fc /\ zoom_range z = v.
Proof.
  unfold Zoom_init. destruct (_ && _); [discriminate |].
  intros H. inversion H. repeat split.
Qed.

(** X7: [Translate]'s constructor reads a float f as the pair (f, f) and a
    list or tuple by its first two elements (further elements are ignored);
    an integer or [None] raises [TypeError] and a sequence with fewer than
    two elements raises [IndexError], both at construction. *)
Theorem Translate_init_cases (fc : fill_cfg) (lazy : bool) :
  (forall f,
     Translate_init (PyFloat f) fc lazy
     = Translate_init (PyTuple [PyFloat f; PyFloat f]) fc lazy
     /\ Translate_init (PyFloat f) fc lazy
        = Ok (MkTranslate (PyFloat f) (PyFloat f) fc lazy))
  /\ (forall a b rest,
        Translate_init (PyTuple (a :: b :: rest)) fc lazy
        = Ok (MkTranslate a b fc lazy)
        /\ Translate_init (PyList (a :: b :: rest)) fc lazy
           = Ok (MkTranslate a b fc lazy))
  /\ (forall z, Translate_init (PyInt z) fc lazy = Raise TypeError)
  /\ Translate_init PyNone fc lazy = Raise TypeError
  /\ (forall a, Translate_init (PyTuple [a]) fc lazy = Raise IndexError
                /\ Translate_init (PyList [a]) fc lazy = Raise IndexError)
  /\ Translate_init (PyTuple []) fc lazy = Raise IndexError
  /\ Translate_init (PyList []) fc lazy = Raise IndexError.
Proof.
  repeat split.
Qed.

(** X8: when [Affine.__init__] succeeds, the sub-transforms it holds are,
    in this order, a [Rotate], a [Translate], a [Shear] and a [Zoom], one
    for each range whose truth value is true (a range of [None], 0, 0.0 or
    an empty sequence gives no stage); every one of them is lazy, and the
    fill configuration is the one passed in. *)
Theorem Affine_init_stages (rr tr sr zr : pyval) (fc fc' : fill_cfg)
  (transforms : list obj) :
  Affine_init rr tr sr zr fc = Ok (OAffine transforms fc') ->
  fc' = fc
  /\ map class_name transforms
     = (if truthy rr then ["Rotate"%string] else [])
       ++ (if truthy tr then ["Translate"%string] else [])
       ++ (if truthy sr then ["Shear"%string] else [])
       ++ (if truthy zr then ["Zoom"%string] else [])
  /\ Forall (fun t => lazy_of t = Some true) transforms.
Proof.
  unfold Affine_init.
  destruct (truthy rr), (truthy tr),
    (Translate_init tr default_fill true) as [t | e] eqn:Et,
    (truthy sr), (truthy zr),
    (Zoom_init zr default_fill true) as [z | e'] eqn:Ez;
    cbn; intros H; inversion H; subst; clear H;
    try (apply Translate_init_lazy in Et; destruct Et as [Et _]);
    try (apply Zoom_init_lazy in Ez; destruct Ez as [Ez _]);
    (split; [reflexivity |]); (split; [reflexivity |]);
    repeat (apply Forall_cons; [cbn; try rewrite Et; try rewrite Ez;
                                reflexivity |]);
    apply Forall_nil.
Qed.

(** [Affine(rotation_range=10, translation_range=0.0, shear_range=None,
    zoom_range=(0.7, 1.4))] holds a [Rotate] and a [Zoom]. *)
Lemma Affine_init_stages_witness :
  exists transforms,
    Affine_init (PyInt 10) (PyFloat 0) PyNone
      (PyTuple [PyFloat 0.7; PyFloat 1.4]) default_fill
    = Ok (OAffine transforms default_fill)
    /\ Forall (fun t => lazy_of t = Some true) transforms.
Proof.
  assert (E : Affine_init (PyInt 10) (PyFloat 0) PyNone
                (PyTuple [PyFloat 0.7; PyFloat 1.4]) default_fill
              = Ok (OAffine
                      [ORotate (MkRotate (PyInt 10) default_fill true);
                       OZoom (MkZoom (PyTuple [PyFloat 0.7; PyFloat 1.4])
                                default_fill true)] default_fill)).
  { unfold Affine_init. cbn [truthy Z.eqb negb].
    destruct (Req_dec_T 0 0) as [_ | Hne]; [reflexivity | contradiction]. }
  eexists. split; [exact E |].
  exact (proj2 (proj2 (Affine_init_stages _ _ _ _ _ _ _ E))).
Defined.

Lemma set_lazy_facts (t : obj) :
  class_name (set_lazy t) = class_name t
  /\ config_of (set_lazy t) = config_of t
  /\ is_builder (set_lazy t) = is_builder t
  /\ (is_builder t = true -> lazy_of (set_lazy t) = Some true)
  /\ (is_builder t = false -> set_lazy t = t)
  /\ set_lazy (set_lazy t) = set_lazy t.
Proof.
  destruct t; cbn; repeat split; intros; try reflexivity; discriminate.
Qed.

Lemma lazy_builder_returns_matrix
  (ndi_sample : string -> R -> ndarray -> R -> R -> R)
  (t : obj) (X : ndarray) (y : option ndarray) (g : rng) (v : value) :
  is_builder t = true ->
  lazy_of t = Some true ->
  result_of (transform ndi_sample t X y g) = Ok v ->
  exists m, v = VMat m.
Proof.
  intros Hb Hl.
  destruct t as [| | | | | | | r | t | s | z | |]; try discriminate Hb;
    cbn in Hl; inversion Hl as [Hl']; cbn [transform]; unfold keep.
  - unfold Rotate_transform. rewrite transform_of_matrix_tail, Hl'.
    destruct (Rotate_matrix r g) as [[m | e] g']; unfold result_of; cbn;
      intros H; inversion H. eexists; reflexivity.
  - unfold Translate_transform. rewrite transform_of_matrix_tail, Hl'.
    destruct (Translate_matrix t X g) as [[m | e] g']; unfold result_of; cbn;
      intros H; inversion H. eexists; reflexivity.
  - unfold Shear_transform. rewrite transform_of_matrix_tail, Hl'.
    destruct (Shear_matrix s g) as [[m | e] g']; unfold result_of; cbn;
      intros H; inversion H. eexists; reflexivity.
  - unfold Zoom_transform. rewrite transform_of_matrix_tail, Hl'.
    destruct (Zoom_matrix z g) as [[m | e] g']; unfold result_of; cbn;
      intros H; inversion H. eexists; reflexivity.
Qed.

Lemma assign_lazy_all (transforms : list obj) :
  forallb takes_attributes transforms = true ->
  rmap_list assign_lazy transforms = Ok (map set_lazy transforms).
Proof.
  intros H. apply rmap_list_ok. intros t Hin.
  rewrite forallb_forall in H. specialize (H t Hin).
  destruct t; try reflexivity. discriminate H.
Qed.

Lemma assign_lazy_method (transforms : list obj) (f : ndarray -> M mat3) :
  In (OMethod f) transforms ->
  rmap_list assign_lazy transforms = Raise AttributeError.
Proof.
  induction transforms as [| t rest IH]; intros Hin; [destruct Hin |].
  cbn [rmap_list].
  destruct (assign_lazy t) as [t' | e] eqn:E.
  - cbn [rbind]. destruct Hin as [-> | Hin]; [discriminate E |].
    rewrite (IH Hin). reflexivity.
  - destruct t; inversion E. reflexivity.
Qed.

(** X9: [AffineCompose.__init__] raises [AttributeError] when the sequence
    holds an object that takes no new attribute (a bound method, a
    builtin).  Otherwise it succeeds and holds the sequence it was given,
    element by element and in order, with the fill settings it was given:
    a builder keeps its class, its range and its fill settings and has
    [lazy] set, whatever it was, so that from then on its [transform]
    returns its 3x3 matrix and never a transformed image; an object that is
    not a builder is held as it is; and doing it again on the held sequence
    changes nothing more. *)
Theorem AffineCompose_init_forces_lazy
  (ndi_sample : string -> R -> ndarray -> R -> R -> R)
  (transforms : list obj) (fc : fill_cfg) :
  (forallb takes_attributes transforms = true ->
   exists held,
     AffineCompose_init transforms fc = Ok (OAffineCompose held fc)
     /\ AffineCompose_init held fc = Ok (OAffineCompose held fc)
     /\ Forall2
          (fun t t' =>
             class_name t' = class_name t
             /\ config_of t' = config_of t
             /\ (is_builder t = true ->
                 lazy_of t' = Some true
                 /\ forall X y g v,
                      result_of (transform ndi_sample t' X y g) = Ok v ->
                      exists m, v = VMat m)
             /\ (is_builder t = false -> t' = t))
          transforms held)
  /\ (forall f, In (OMethod f) transforms ->
        AffineCompose_init transforms fc = Raise AttributeError).
Proof.
  split.
  - intros Hall. exists (map set_lazy transforms). unfold AffineCompose_init.
    rewrite (assign_lazy_all transforms Hall). cbn [rbind].
    split; [reflexivity |]. split.
    + rewrite assign_lazy_all.
      * cbn [rbind]. rewrite map_map. do 2 f_equal.
        apply map_ext. intros t. apply set_lazy_facts.
      * rewrite forallb_forall in *. intros t' Hin.
        apply in_map_iff in Hin. destruct Hin as (t & <- & Hin).
        specialize (Hall t Hin). destruct t; try reflexivity. discriminate.
    + clear Hall. induction transforms as [| t rest IH]; cbn [map];
        constructor; [| exact IH].
      destruct (set_lazy_facts t) as (Hc & Hcfg & Hb & Hl & Hnb & _).
      split; [exact Hc |]. split; [exact Hcfg |]. split; [| exact Hnb].
      intros Hbt. split; [exact (Hl Hbt) |].
      intros X y g v. apply lazy_builder_returns_matrix; [| exact (Hl Hbt)].
      rewrite Hb. exact Hbt.
  - intros f Hin. unfold AffineCompose_init.
    rewrite (assign_lazy_method transforms f Hin). reflexivity.
Qed.

(** [AffineCompose([Rotate(30), f])] for a function f holds a lazy
    [Rotate(30)] and f. *)
Lemma AffineCompose_init_forces_lazy_witness :
  let f := OCallable (fun _ => ret identity) in
  AffineCompose_init
    [ORotate (MkRotate (PyInt 30) default_fill false); f] default_fill
  = Ok (OAffineCompose
          [ORotate (MkRotate (PyInt 30) default_fill true); f] default_fill).
Proof.
  intros f.
  destruct (AffineCompose_init_forces_lazy nearest_sample
              [ORotate (MkRotate (PyInt 30) default_fill false); f]
              default_fill) as [H _].
  destruct (H eq_refl) as (held & Hinit & _ & Hall).
  rewrite Hinit. do 2 f_equal.
  inversion Hall as [| t t' l l' (Hc & Hcfg & Hlazy & _) Hrest]; subst.
  inversion Hrest as [| u u' k k' (_ & _ & _ & Hkeep) Hnil]; subst.
  inversion Hnil; subst.
  rewrite (Hkeep eq_refl). f_equal.
  destruct (Hlazy eq_refl) as [Hl _].
  destruct t' as [| | | | | | | r | | | | |]; try discriminate Hc.
  destruct r as [rr rf rl]. cbn in Hcfg, Hl.
  inversion Hcfg. inversion Hl. reflexivity.
Defined.

(** X10: a builder that is not lazy, called on an image of shape (h, w, c)
    and a target of shape (h', w', c') with c, c' >= 1 and fill modes that
    the sampler knows, succeeds whenever the sampling of its matrix does.
    It samples one matrix and uses it for both: the image comes back
    resampled through that matrix with (fill_mode, fill_value), the target
    through the same matrix with (target_fill_mode, target_fill_value), each
    about its own centre and each channel first, with shapes (c, h, w) and
    (c', h', w'); without a target the image alone is returned.  The builder
    is unchanged, and the random source is left where the sampling of the
    matrix left it. *)
Theorem builders_apply_one_matrix
  (ndi_sample : string -> R -> ndarray -> R -> R -> R)
  (t : obj) (rs : list pyval) (fc : fill_cfg) (sample : M mat3)
  (X y : ndarray) (g g' : rng) (m : mat3) (h w c h' w' c' : nat) :
  lazy_of t = Some false ->
  config_of t = Some (rs, fc) ->
  sampled_matrix t X = Some sample ->
  sample g = (Ok m, g') ->
  shape X = [h; w; S c] ->
  shape y = [h'; w'; S c'] ->
  In (fill_mode fc) ndi_modes ->
  In (target_fill_mode fc) ndi_modes ->
  exists X' y',
    transform ndi_sample t X (Some y) g = (Ok (VPair X' y'), t, g')
    /\ transform ndi_sample t X None g = (Ok (VArr X'), t, g')
    /\ array_eq X'
         (resample_channels ndi_sample
            (astype (transpose X [2; 0; 1]%nat) Float32) m
            (fill_mode fc) (fill_value fc))
    /\ array_eq y'
         (resample_channels ndi_sample
            (astype (transpose y [2; 0; 1]%nat) Float32) m
            (target_fill_mode fc) (target_fill_value fc))
    /\ shape X' = [S c; h; w]
    /\ shape y' = [S c'; h'; w'].
Proof.
  intros Hlazy Hcfg Hsample Hm HX Hy HmX Hmy.
  destruct (apply_transform_default_axis ndi_sample X m (fill_mode fc)
              (fill_value fc) h w c HX HmX) as (X' & EX & HeqX).
  destruct (apply_transform_default_axis ndi_sample y m (target_fill_mode fc)
              (target_fill_value fc) h' w' c' Hy Hmy) as (y' & Ey & Heqy).
  exists X', y'.
  assert (Hto : forall fc0, fc0 = fc ->
            apply_to ndi_sample fc0 X (Some y) m = Ok (VPair X' y')
            /\ apply_to ndi_sample fc0 X None m = Ok (VArr X')).
  { intros fc0 ->. unfold apply_to. rewrite EX, Ey. split; reflexivity. }
  assert (Hshapes : shape X' = [S c; h; w] /\ shape y' = [S c'; h'; w']).
  { destruct HeqX as (_ & -> & _), Heqy as (_ & -> & _).
    cbn. rewrite HX, Hy. split; reflexivity. }
  split; [| split; [| split; [exact HeqX | split; [exact Heqy | exact Hshapes]]]];
    destruct t as [| | | | | | | r | t | s | z | |]; try discriminate Hlazy;
    cbn in Hlazy, Hcfg, Hsample;
    inversion Hlazy as [Hl]; inversion Hcfg as [[Hrs Hfc]];
    inversion Hsample as [Hs]; subst sample;
    cbn [transform]; unfold keep;
    try unfold Rotate_transform; try unfold Translate_transform;
    try unfold Shear_transform; try unfold Zoom_transform;
    rewrite transform_of_matrix_tail, Hm, Hl;
    destruct (Hto _ Hfc) as [Hpair Halone];
    rewrite ?Hpair, ?Halone; reflexivity.
Qed.

(** [Zoom((1, 2), lazy=False)] on a 4x5x3 image and a 2x2x1 target: two
    draws, and the pair comes back with shapes (3, 4, 5) and (1, 2, 2). *)
Lemma builders_apply_one_matrix_witness :
  let zoom := OZoom (MkZoom (PyTuple [PyInt 1; PyInt 2]) default_fill false) in
  exists X' y',
    transform nearest_sample zoom (blank [4; 5; 3]%nat)
      (Some (blank [2; 2; 1]%nat)) quarter_rng
    = (Ok (VPair X' y'), zoom, Rng (stream quarter_rng) 2)
    /\ shape X' = [3; 4; 5]%nat
    /\ shape y' = [1; 2; 2]%nat.
Proof.
  intros zoom.
  assert (Hc : In "constant"%string ndi_modes)
    by (unfold ndi_modes; simpl; tauto).
  assert (Hn : In "nearest"%string ndi_modes) by (left; reflexivity).
  pose proof (Zoom_matrix_numeric (PyTuple [PyInt 1; PyInt 2]) default_fill
                false (PyInt 1) (PyInt 2) 1 2 quarter_rng
                (or_introl eq_refl) eq_refl eq_refl) as Hm.
  destruct (builders_apply_one_matrix nearest_sample zoom
              [PyTuple [PyInt 1; PyInt 2]] default_fill _
              (blank [4; 5; 3]%nat) (blank [2; 2; 1]%nat) quarter_rng _ _
              4 5 2 2 2 0 eq_refl eq_refl eq_refl Hm eq_refl eq_refl Hc Hn)
    as (X' & y' & Hpair & _ & _ & _ & HsX & Hsy).
  exists X', y'. split; [exact Hpair |]. split; assumption.
Defined.

(** ** [apply_transform]: the inputs it refuses and the channel axes it
    handles *)

Lemma mode_unknown (mode : string) :
  ~ In mode ndi_modes -> existsb (String.eqb mode) ndi_modes = false.
Proof.
  intros H. destruct (existsb (String.eqb mode) ndi_modes) eqn:E;
    [| reflexivity].
  apply existsb_exists in E. destruct E as (m & Hin & Heq).
  apply String.eqb_eq in Heq. subst m. contradiction.
Qed.

Lemma affine_transform_refuses
  (ndi_sample : string -> R -> ndarray -> R -> R -> R)
  (input : ndarray) (matrix : mat2) (offset : R * R) (mode : string)
  (cval : R) :
  ~ In mode ndi_modes \/ ndim input <> 2%nat ->
  affine_transform ndi_sample input matrix offset mode cval
  = Raise RuntimeError.
Proof.
  intros H. unfold affine_transform.
  destruct (existsb (String.eqb mode) ndi_modes) eqn:E; [| reflexivity].
  destruct H as [H | H].
  - rewrite (mode_unknown mode H) in E. discriminate E.
  - cbn [negb]. destruct (ndim input =? 2)%nat eqn:En; [| reflexivity].
    apply Nat.eqb_eq in En. contradiction.
Qed.

(** X11: with the channel axis left to its default, [apply_transform]
    raises [IndexError] for an array of one or two dimensions (an image
    without a channel axis), [ValueError] for a three-dimensional image with
    no channel, and [RuntimeError] for an image with at least one channel
    when the fill mode is none of the eight of [ndi_modes] (the modes
    SciPy knows, the [grid-] ones included) or when the array has four
    dimensions. *)
Theorem apply_transform_refuses
  (ndi_sample : string -> R -> ndarray -> R -> R -> R)
  (x : ndarray) (M : mat3) (mode : string) (cval : R) :
  (forall n, shape x = [n] ->
     apply_transform ndi_sample x M mode cval (-1) = Raise IndexError)
  /\ (forall h w, shape x = [h; w] ->
        apply_transform ndi_sample x M mode cval (-1) = Raise IndexError)
  /\ (forall h w, shape x = [h; w; 0%nat] ->
        apply_transform ndi_sample x M mode cval (-1) = Raise ValueError)
  /\ (forall h w c, shape x = [h; w; S c] -> ~ In mode ndi_modes ->
        apply_transform ndi_sample x M mode cval (-1) = Raise RuntimeError)
  /\ (forall a h w c, shape x = [a; h; w; S c] ->
        apply_transform ndi_sample x M mode cval (-1) = Raise RuntimeError).
Proof.
  repeat split.
  - intros n Hs. destruct x as [dt sh dat]. cbn [shape] in Hs. subst sh.
    reflexivity.
  - intros h w Hs. destruct x as [dt sh dat]. cbn [shape] in Hs. subst sh.
    reflexivity.
  - intros h w Hs. destruct x as [dt sh dat]. cbn [shape] in Hs. subst sh.
    reflexivity.
  - intros h w c Hs Hmode. unfold apply_transform.
    rewrite rollaxis_last_front by (unfold ndim; rewrite Hs; reflexivity).
    destruct x as [dt sh dat]. cbn [shape] in Hs. subst sh.
    cbn [rbind]. unfold shape_at, iterate.
    cbn [astype transpose shape map nth nth_error rbind seq rmap_list].
    rewrite affine_transform_refuses by (left; exact Hmode). reflexivity.
  - intros a h w c Hs. destruct x as [dt sh dat]. cbn [shape] in Hs. subst sh.
    unfold apply_transform.
    assert (E : rollaxis (NdArray dt [a; h; w; S c] dat) (-1) 0
                = Ok (transpose (NdArray dt [a; h; w; S c] dat)
                        [3; 0; 1; 2]%nat)) by reflexivity.
    rewrite E. cbn [rbind]. unfold shape_at, iterate.
    cbn [astype transpose shape map nth nth_error rbind seq rmap_list].
    rewrite affine_transform_refuses; [reflexivity |].
    right. unfold ndim, subarray. cbn. discriminate.
Qed.

(** A 4x5 image without a channel axis. *)
Lemma apply_transform_refuses_witness :
  apply_transform nearest_sample (blank [4; 5]%nat) identity "nearest" 0 (-1)
  = Raise IndexError.
Proof.
  exact (proj1 (proj2 (apply_transform_refuses nearest_sample
                         (blank [4; 5]%nat) identity "nearest" 0))
           4%nat 5%nat eq_refl).
Defined.

Lemma apply_transform_via
  (ndi_sample : string -> R -> ndarray -> R -> R -> R)
  (x x1 : ndarray) (M : mat3) (mode : string) (cval : R) (channel_axis : Z)
  (c h w : nat) (post : ndarray -> ndarray) :
  rollaxis x channel_axis 0 = Ok x1 ->
  shape x1 = [S c; h; w] ->
  In mode ndi_modes ->
  (forall s, ndim s = 3%nat -> rollaxis s 0 (channel_axis + 1) = Ok (post s)) ->
  exists s,
    apply_transform ndi_sample x M mode cval channel_axis = Ok (post s)
    /\ shape s = [S c; h; w]
    /\ dtype_of s = Float32.
Proof.
  intros Hroll Hs1 Hm Hpost. unfold apply_transform. rewrite Hroll.
  cbn [rbind].
  assert (Hs' : shape (astype x1 Float32) = [S c; h; w]) by exact Hs1.
  unfold shape_at. rewrite Hs'. cbn [nth_error rbind].
  destruct (channels_stacked ndi_sample (astype x1 Float32) M mode cval c h w
              Hs' Hm) as (s & Es & Hn & Hd & Hsh & _).
  rewrite Es. rewrite (Hpost s Hn). cbn [rbind].
  exists s. split; [reflexivity |]. split.
  - rewrite Hsh. exact Hs'.
  - rewrite Hd. reflexivity.
Qed.

(** X12: on a three-dimensional image whose channel axis is given as 0, 1,
    2, -2 or -3 (with at least one channel along it), [apply_transform]
    returns a float32 array of the shape of the input; -1, the default, is
    the only valid axis for which the channels are left in front. *)
Theorem apply_transform_channel_axes
  (ndi_sample : string -> R -> ndarray -> R -> R -> R)
  (dt : dtype) (dat : list nat -> R) (M : mat3) (mode : string) (cval : R)
  (n0 n1 n2 : nat) :
  In mode ndi_modes ->
  let keeps x ca :=
    exists r, apply_transform ndi_sample x M mode cval ca = Ok r
              /\ shape r = shape x /\ dtype_of r = Float32 in
  (keeps (NdArray dt [S n0; n1; n2] dat) 0%Z
   /\ keeps (NdArray dt [S n0; n1; n2] dat) (-3)%Z)
  /\ (keeps (NdArray dt [n0; S n1; n2] dat) 1%Z
      /\ keeps (NdArray dt [n0; S n1; n2] dat) (-2)%Z)
  /\ keeps (NdArray dt [n0; n1; S n2] dat) 2%Z
  /\ (exists r,
        apply_transform ndi_sample (NdArray dt [n0; n1; S n2] dat) M mode cval
          (-1) = Ok r
        /\ shape r = [S n2; n0; n1] /\ dtype_of r = Float32).
Proof.
  intros Hm keeps.
  assert (Hid : forall s, ndim s = 3%nat -> rollaxis s 0 1 = Ok s).
  { intros s Hn. unfold rollaxis. rewrite Hn. reflexivity. }
  assert (Hid' : forall s, ndim s = 3%nat -> rollaxis s 0 (-2) = Ok s).
  { intros s Hn. unfold rollaxis. rewrite Hn. reflexivity. }
  assert (Hsw : forall s, ndim s = 3%nat ->
                  rollaxis s 0 2 = Ok (transpose s [1; 0; 2]%nat)).
  { intros s Hn. unfold rollaxis. rewrite Hn. reflexivity. }
  assert (Hsw' : forall s, ndim s = 3%nat ->
                   rollaxis s 0 (-1) = Ok (transpose s [1; 0; 2]%nat)).
  { intros s Hn. unfold rollaxis. rewrite Hn. reflexivity. }
  repeat split.
  - destruct (apply_transform_via ndi_sample (NdArray dt [S n0; n1; n2] dat)
                (NdArray dt [S n0; n1; n2] dat) M mode cval 0 n0 n1 n2
                (fun s => s) eq_refl eq_refl Hm Hid) as (s & E & Hs & Hd).
    exists s. repeat split; assumption.
  - destruct (apply_transform_via ndi_sample (NdArray dt [S n0; n1; n2] dat)
                (NdArray dt [S n0; n1; n2] dat) M mode cval (-3) n0 n1 n2
                (fun s => s) eq_refl eq_refl Hm Hid') as (s & E & Hs & Hd).
    exists s. repeat split; assumption.
  - destruct (apply_transform_via ndi_sample (NdArray dt [n0; S n1; n2] dat)
                (transpose (NdArray dt [n0; S n1; n2] dat) [1; 0; 2]%nat)
                M mode cval 1 n1 n0 n2
                (fun s => transpose s [1; 0; 2]%nat) eq_refl eq_refl Hm Hsw)
      as (s & E & Hs & Hd).
    exists (transpose s [1; 0; 2]%nat). split; [exact E |].
    split; [cbn; rewrite Hs; reflexivity | exact Hd].
  - destruct (apply_transform_via ndi_sample (NdArray dt [n0; S n1; n2] dat)
                (transpose (NdArray dt [n0; S n1; n2] dat) [1; 0; 2]%nat)
                M mode cval (-2) n1 n0 n2
                (fun s => transpose s [1; 0; 2]%nat) eq_refl eq_refl Hm Hsw')
      as (s & E & Hs & Hd).
    exists (transpose s [1; 0; 2]%nat). split; [exact E |].
    split; [cbn; rewrite Hs; reflexivity | exact Hd].
  - exact (proj2 (apply_transform_shapes ndi_sample
                    (NdArray dt [n0; n1; S n2] dat) M mode cval n0 n1 n2
                    eq_refl Hm)).
  - exact (proj1 (apply_transform_shapes ndi_sample
                    (NdArray dt [n0; n1; S n2] dat) M mode cval n0 n1 n2
                    eq_refl Hm)).
Qed.

(** A channel-first 3x4x5 image with [channel_axis=0]. *)
Lemma apply_transform_channel_axes_witness :
  exists r,
    apply_transform nearest_sample (NdArray Float64 [3; 4; 5]%nat (fun _ => 0))
      identity "nearest" 0 0 = Ok r
    /\ shape r = [3; 4; 5]%nat.
Proof.
  assert (Hm : In "nearest"%string ndi_modes) by (left; reflexivity).
  destruct (apply_transform_channel_axes nearest_sample Float64 (fun _ => 0)
              identity "nearest" 0 2 4 5 Hm) as [[(r & E & Hs & _) _] _].
  exists r. split; [exact E | exact Hs].
Defined.

(** ** [Compose] *)

Lemma transform_Compose
  (ndi_sample : string -> R -> ndarray -> R -> R -> R)
  (txs : list obj) (X : ndarray) (y : option ndarray) (g : rng) :
  transform ndi_sample (OCompose txs) X y g
  = let '(r, txs', g') := compose_steps ndi_sample txs (VArr X) g in
    (r, OCompose txs', g').
Proof.
  cbn [transform].
  set (loop := fix loop (txs : list obj) (X : value) (g : rng)
                 : result value * list obj * rng := _).
  assert (E : forall txs v g, loop txs v g = compose_steps ndi_sample txs v g).
  { clear. induction txs as [| tx txs IH]; intros v g; [reflexivity |].
    cbn [loop compose_steps]. fold loop.
    destruct (as_input v) as [X | e]; [| reflexivity].
    destruct (transform ndi_sample tx X None g) as [[[v' | e] tx'] g'];
      [| reflexivity].
    rewrite IH. reflexivity. }
  rewrite E. reflexivity.
Qed.

Lemma compose_steps_app
  (ndi_sample : string -> R -> ndarray -> R -> R -> R)
  (a b : list obj) (v : value) (g : rng) :
  compose_steps ndi_sample (a ++ b) v g
  = match compose_steps ndi_sample a v g with
    | (Ok v', a', g') =>
        let '(r, b', g'') := compose_steps ndi_sample b v' g' in
        (r, a' ++ b', g'')
    | (Raise e, a', g') => (Raise e, a' ++ b, g')
    end.
Proof.
  revert v g. induction a as [| tx a IH]; intros v g.
  - cbn [app compose_steps].
    destruct (compose_steps ndi_sample b v g) as [[r b'] g']. reflexivity.
  - cbn [app compose_steps].
    destruct (as_input v) as [X | e]; [| reflexivity].
    destruct (transform ndi_sample tx X None g) as [[[v' | e] tx'] g'];
      [| reflexivity].
    rewrite IH.
    destruct (compose_steps ndi_sample a v' g') as [[[v'' | e] a'] g''].
    + destruct (compose_steps ndi_sample b v'' g'') as [[r b'] g3].
      reflexivity.
    + reflexivity.
Qed.

Lemma compose_steps_input
  (ndi_sample : string -> R -> ndarray -> R -> R -> R)
  (tx : obj) (b : list obj) (v : value) (X' : ndarray) (g : rng) :
  as_input v = Ok X' ->
  compose_steps ndi_sample (tx :: b) v g
  = compose_steps ndi_sample (tx :: b) (VArr X') g.
Proof.
  intros H. cbn [compose_steps as_input]. rewrite H. reflexivity.
Qed.

(** X13: [Compose.transform] runs its steps in order, each on what the step
    before returned and never with the target [y]: an empty pipeline
    returns [X] itself; a pipeline [a ++ tx :: b] whose part [a] succeeds
    continues as the pipeline [tx :: b] on the result of [a], from the
    random source [a] left; when a step of [a] raises, the exception is the
    pipeline's and the steps after it are not run. *)
Theorem Compose_transform_sequences
  (ndi_sample : string -> R -> ndarray -> R -> R -> R)
  (a : list obj) (X : ndarray) (y : option ndarray) (g : rng) :
  transform ndi_sample (OCompose []) X y g = (Ok (VArr X), OCompose [], g)
  /\ transform ndi_sample (OCompose a) X y g
     = transform ndi_sample (OCompose a) X None g
  /\ (forall v a' g' X' tx b,
        transform ndi_sample (OCompose a) X y g = (Ok v, OCompose a', g') ->
        as_input v = Ok X' ->
        transform ndi_sample (OCompose (a ++ tx :: b)) X y g
        = let '(r, rest, g'') :=
            transform ndi_sample (OCompose (tx :: b)) X' None g' in
          (r, OCompose (a' ++ steps_of rest), g''))
  /\ (forall e a' g' b,
        transform ndi_sample (OCompose a) X y g = (Raise e, OCompose a', g') ->
        transform ndi_sample (OCompose (a ++ b)) X y g
        = (Raise e, OCompose (a' ++ b), g'))
  /\ (forall tx1 tx2 X1 tx1' g1,
        transform ndi_sample tx1 X None g = (Ok (VArr X1), tx1', g1) ->
        result_of (transform ndi_sample (OCompose [tx1; tx2]) X y g)
        = result_of (transform ndi_sample tx2 X1 None g1)).
Proof.
  split; [reflexivity |]. split; [rewrite !transform_Compose; reflexivity |].
  split; [| split].
  - intros v a' g' X' tx b Ha Hin.
    rewrite transform_Compose in Ha. rewrite !transform_Compose.
    rewrite compose_steps_app.
    destruct (compose_steps ndi_sample a (VArr X) g) as [[r a1] g1].
    inversion Ha; subst.
    rewrite (compose_steps_input ndi_sample tx b v X' g' Hin).
    destruct (compose_steps ndi_sample (tx :: b) (VArr X') g')
      as [[r b'] g'']. reflexivity.
  - intros e a' g' b Ha.
    rewrite transform_Compose in Ha. rewrite transform_Compose.
    rewrite compose_steps_app.
    destruct (compose_steps ndi_sample a (VArr X) g) as [[r a1] g1].
    inversion Ha; subst. reflexivity.
  - intros tx1 tx2 X1 tx1' g1 H1.
    rewrite transform_Compose. cbn [compose_steps as_input].
    rewrite H1. cbn [as_input].
    destruct (transform ndi_sample tx2 X1 None g1) as [[[v | e] tx2'] g2];
      reflexivity.
Qed.

(** [Compose([TypeCast('float64'), ExpandDims(-1)])] on the labels
    [0, 2, 1] is [ExpandDims(-1)] on the cast labels. *)
Lemma Compose_transform_sequences_witness :
  result_of (transform nearest_sample
               (OCompose [OTypeCast Float64; OExpandDims (-1)]) labels_021
               None quarter_rng)
  = result_of (transform nearest_sample (OExpandDims (-1))
                 (astype labels_021 Float64) None quarter_rng).
Proof.
  exact (proj2 (proj2 (proj2 (proj2
           (Compose_transform_sequences nearest_sample [] labels_021 None
              quarter_rng))))
           (OTypeCast Float64) (OExpandDims (-1)) (astype labels_021 Float64)
           (OTypeCast Float64) quarter_rng eq_refl).
Defined.

Lemma reset_fit_characterised :
  forall (self : obj) (X : ndarray) (y : option ndarray),
    reset self = (if compose_only self then Ok tt else Raise AttributeError)
    /\ fit self X y
       = (if compose_only self then Ok tt else Raise AttributeError).
Proof.
  fix IH 1. intros self X y.
  destruct self as [transforms | | | | | | | | | | | |];
    try (split; reflexivity).
  cbn [reset fit compose_only].
  induction transforms as [| tx txs IHl]; [split; reflexivity |].
  cbn [forallb]. destruct (IH tx X y) as [Hr Hf]. rewrite Hr, Hf.
  destruct (compose_only tx); cbn [rbind andb]; [exact IHl |].
  split; reflexivity.
Qed.

(** X14: [Compose._reset] and [Compose.fit] succeed only on a pipeline made
    of [Compose] objects alone, at every depth (the empty pipeline among
    them); as soon as the pipeline holds any other object of the module (a
    [Rotate], a [TypeCast], an [Affine], ...), which defines neither
    [_reset] nor [fit], the call raises [AttributeError]. *)
Theorem Compose_reset_and_fit (self : obj) (X : ndarray) (y : option ndarray) :
  reset self = (if compose_only self then Ok tt else Raise AttributeError)
  /\ fit self X y
     = (if compose_only self then Ok tt else Raise AttributeError)
  /\ (forall before tx after,
        compose_only tx = false ->
        reset (OCompose (before ++ tx :: after)) = Raise AttributeError
        /\ fit (OCompose (before ++ tx :: after)) X y = Raise AttributeError).
Proof.
  destruct (reset_fit_characterised self X y) as [Hr Hf].
  split; [exact Hr |]. split; [exact Hf |].
  intros before tx after Htx.
  destruct (reset_fit_characterised (OCompose (before ++ tx :: after)) X y)
    as [Hr' Hf'].
  rewrite Hr', Hf'. cbn [compose_only].
  rewrite forallb_app. cbn [forallb]. rewrite Htx.
  rewrite andb_false_r. split; reflexivity.
Qed.

(** [Compose([Compose([]), Rotate(10)])]. *)
Lemma Compose_reset_and_fit_witness :
  reset (OCompose [OCompose []; ORotate (MkRotate (PyInt 10) default_fill
                                          false)])
  = Raise AttributeError
  /\ reset (OCompose [OCompose []; OCompose [OCompose []]]) = Ok tt.
Proof.
  split.
  - exact (proj1 (proj2 (proj2 (Compose_reset_and_fit (OCompose [])
                                  labels_01 None))
                    [OCompose []]
                    (ORotate (MkRotate (PyInt 10) default_fill false)) []
                    eq_refl)).
  - exact (proj1 (Compose_reset_and_fit
                    (OCompose [OCompose []; OCompose [OCompose []]])
                    labels_01 None)).
Defined.

(** ** [ExpandDims] *)

Lemma map_flat_map {A B C} (f : B -> C) (g : A -> list B) (l : list A) :
  map f (flat_map g l) = flat_map (fun a => map f (g a)) l.
Proof.
  induction l as [| a l IH]; [reflexivity |].
  cbn [flat_map]. rewrite map_app, IH. reflexivity.
Qed.

Lemma indices_insert_axis (p : nat) (sh : list nat) :
  (p <= length sh)%nat ->
  map (fun idx => firstn p idx ++ skipn (S p) idx)
      (indices (firstn p sh ++ 1%nat :: skipn p sh))
  = indices sh.
Proof.
  revert sh. induction p as [| p IH]; intros sh Hp.
  - cbn [firstn skipn app indices seq flat_map].
    rewrite app_nil_r, map_map. cbn [firstn skipn app]. apply map_id.
  - destruct sh as [| n sh]; [cbn in Hp; lia |].
    cbn [length] in Hp. cbn [firstn skipn app indices].
    rewrite map_flat_map. apply flat_map_ext. intros i.
    rewrite map_map. rewrite <- (IH sh) by lia. rewrite map_map.
    apply map_ext. intros idx. reflexivity.
Qed.

(** X15: for an axis between -(ndim + 1) and ndim, [ExpandDims.transform]
    returns an array with one more axis, of length 1 and placed at the
    (normalised) position asked for, with the dtype and the elements of the
    input in the same order ([ExpandDims(-1)], the default, appends the axis:
    the shape is the input's followed by 1).  The object and the random
    source are untouched. *)
Theorem ExpandDims_inserts_unit_axis
  (ndi_sample : string -> R -> ndarray -> R -> R -> R)
  (X : ndarray) (axis : Z) (y : option ndarray) (g : rng) :
  let n := Z.of_nat (ndim X) in
  (- n - 1 <= axis <= n)%Z ->
  let p := Z.to_nat (if (axis <? 0)%Z then axis + n + 1 else axis)%Z in
  exists a,
    transform ndi_sample (OExpandDims axis) X y g
    = (Ok (VArr a), OExpandDims axis, g)
    /\ shape a = firstn p (shape X) ++ 1%nat :: skipn p (shape X)
    /\ ndim a = S (ndim X)
    /\ nth p (shape a) O = 1%nat
    /\ dtype_of a = dtype_of X
    /\ ravel a = ravel X
    /\ (axis = (-1)%Z -> shape a = shape X ++ [1%nat]).
Proof.
  intros n Hax p.
  assert (Hnorm : normalize_axis_index axis (S (ndim X)) = Ok p).
  { unfold normalize_axis_index.
    replace (Z.of_nat (S (ndim X))) with (n + 1)%Z by (unfold n; lia).
    assert (E : ((- (n + 1) <=? axis) && (axis <? n + 1))%Z = true).
    { apply andb_true_iff. split; [apply Z.leb_le | apply Z.ltb_lt]; lia. }
    rewrite E. unfold p. rewrite Z.add_assoc. reflexivity. }
  assert (Hp : (p <= length (shape X))%nat).
  { unfold p, n, ndim in *. destruct (axis <? 0)%Z eqn:E.
    - apply Z.ltb_lt in E. lia.
    - apply Z.ltb_ge in E. lia. }
  eexists. split.
  - cbn [transform]. unfold expand_dims. rewrite Hnorm. reflexivity.
  - cbn [shape dtype_of]. split; [reflexivity |]. split.
    { unfold ndim. cbn [shape]. rewrite length_app. cbn [length].
      rewrite length_firstn, length_skipn. lia. }
    split.
    { rewrite app_nth2 by (rewrite length_firstn; lia).
      rewrite length_firstn.
      replace (p - Nat.min p (length (shape X)))%nat with 0%nat by lia.
      reflexivity. }
    split; [reflexivity |]. split.
    { unfold ravel. cbn [shape data].
      rewrite <- (indices_insert_axis p (shape X) Hp).
      rewrite map_map. reflexivity. }
    intros ->.
    assert (Hpn : p = length (shape X)).
    { unfold p. change (-1 <? 0)%Z with true. cbv iota.
      unfold n, ndim. lia. }
    rewrite Hpn, firstn_all, skipn_all. reflexivity.
Qed.

(** [ExpandDims(1)] on the 1x2x3 image gives shape (1, 1, 2, 3) and the same
    six elements. *)
Lemma ExpandDims_inserts_unit_axis_witness :
  exists a,
    transform nearest_sample (OExpandDims 1) sample_image None quarter_rng
    = (Ok (VArr a), OExpandDims 1, quarter_rng)
    /\ shape a = [1; 1; 2; 3]%nat
    /\ ravel a = ravel sample_image.
Proof.
  assert (Hax : (- Z.of_nat (ndim sample_image) - 1 <= 1
                 <= Z.of_nat (ndim sample_image))%Z) by (cbn; lia).
  destruct (ExpandDims_inserts_unit_axis nearest_sample sample_image 1
              None quarter_rng Hax)
    as (a & E & Hs & _ & _ & _ & Hr & _).
  exists a. split; [exact E |]. split; [exact Hs | exact Hr].
Defined.

(** ** [ToCategorical] *)

Lemma indicator_sum (col : Z) (s m : nat) :
  ((Z.of_nat s <= col < Z.of_nat (s + m))%Z ->
   fold_right Rplus 0
     (map (fun j => if (Z.of_nat j =? col)%Z then 1 else 0) (seq s m)) = 1)
  /\ ((col < Z.of_nat s)%Z ->
      fold_right Rplus 0
        (map (fun j => if (Z.of_nat j =? col)%Z then 1 else 0) (seq s m)) = 0).
Proof.
  revert s. induction m as [| m IH]; intros s.
  - split; intros H; [lia | reflexivity].
  - cbn [seq map fold_right]. destruct (IH (S s)) as [IH1 IH0]. split.
    + intros H. destruct (Z.of_nat s =? col)%Z eqn:E.
      * apply Z.eqb_eq in E. rewrite IH0 by lia. lra.
      * apply Z.eqb_neq in E. rewrite IH1 by lia. lra.
    + intros H. destruct (Z.of_nat s =? col)%Z eqn:E.
      * apply Z.eqb_eq in E. lia.
      * rewrite IH0 by lia. lra.
Qed.

Lemma wrap_is_mod (x k : Z) :
  (- k <= x < k)%Z ->
  (if (x <? 0)%Z then (x + k)%Z else x) = (x mod k)%Z
  /\ (0 <= x mod k < k)%Z.
Proof.
  intros H. assert (Hk : (0 < k)%Z) by lia.
  split; [| apply Z.mod_pos_bound; exact Hk].
  destruct (x <? 0)%Z eqn:E.
  - apply Z.ltb_lt in E.
    rewrite <- (Z.mod_small (x + k) k) by lia.
    rewrite <- (Z_mod_plus_full x 1 k). f_equal. lia.
  - apply Z.ltb_ge in E. symmetry. apply Z.mod_small. lia.
Qed.

Lemma labels_in_range (X : list Z) (k : Z) :
  Forall (fun x => (- k <= x < k)%Z) X ->
  forallb (fun x => (- k <=? x) && (x <? k))%Z X = true.
Proof.
  intros H. apply forallb_forall. intros x Hin.
  rewrite Forall_forall in H. specialize (H x Hin).
  apply andb_true_iff. split; [apply Z.leb_le | apply Z.ltb_lt]; lia.
Qed.

Lemma one_hot_rows (X : list Z) (k : Z) :
  (0 < k)%Z ->
  Forall (fun x => (- k <= x < k)%Z) X ->
  exists a,
    one_hot X k = Ok a
    /\ shape a = [length X; Z.to_nat k]
    /\ dtype_of a = Float64
    /\ forall i, (i < length X)%nat ->
         (forall j, data a [i; j]
                    = if (Z.of_nat j =? nth i X 0%Z mod k)%Z then 1 else 0)
         /\ row_sum a i = 1.
Proof.
  intros Hk Hall. unfold one_hot.
  destruct (k <? 0)%Z eqn:E; [apply Z.ltb_lt in E; lia |].
  rewrite (labels_in_range X k Hall).
  eexists. split; [reflexivity |]. cbn [shape dtype_of].
  split; [reflexivity |]. split; [reflexivity |].
  intros i Hi.
  assert (Hx : (- k <= nth i X 0 < k)%Z).
  { rewrite Forall_forall in Hall. apply Hall. apply nth_In. exact Hi. }
  destruct (wrap_is_mod _ _ Hx) as [Hw Hb].
  split.
  - intros j. cbn [data]. rewrite Hw. reflexivity.
  - unfold row_sum. cbn [shape nth data]. rewrite Hw.
    apply (proj1 (indicator_sum (nth i X 0%Z mod k) 0 (Z.to_nat k))). lia.
Qed.

(** X16: with [num_classes] set to k > 0 and every label between -k and
    k - 1, [ToCategorical.transform] returns a float64 array of shape
    (n, k), n the number of labels, whose row i holds a 1 in column
    (label i) mod k and 0 elsewhere, so every row sums to 1; a negative
    label -j is thereby encoded as class k - j.  The object and the random
    source are untouched. *)
Theorem ToCategorical_rows_are_one_hot
  (ndi_sample : string -> R -> ndarray -> R -> R -> R)
  (X : ndarray) (k : Z) (y : option ndarray) (g : rng) :
  (0 < k)%Z ->
  Forall (fun x => (- k <= x < k)%Z) (labels_of X) ->
  exists a,
    transform ndi_sample (OToCategorical (Some k)) X y g
    = (Ok (VArr a), OToCategorical (Some k), g)
    /\ shape a = [length (labels_of X); Z.to_nat k]
    /\ dtype_of a = Float64
    /\ forall i, (i < length (labels_of X))%nat ->
         (forall j, data a [i; j]
                    = if (Z.of_nat j =? nth i (labels_of X) 0%Z mod k)%Z
                      then 1 else 0)
         /\ row_sum a i = 1.
Proof.
  intros Hk Hall.
  destruct (one_hot_rows (labels_of X) k Hk Hall) as (a & E & Hs & Hd & Hrows).
  exists a. split; [| split; [exact Hs | split; [exact Hd | exact Hrows]]].
  cbn [transform]. unfold ToCategorical_transform. fold (labels_of X).
  destruct (k =? 0)%Z eqn:Ek; [apply Z.eqb_eq in Ek; lia |].
  rewrite E. reflexivity.
Qed.

Lemma labels_of_021 : labels_of labels_021 = [0; 2; 1]%Z.
Proof. exact ravel_labels_021. Qed.

(** [ToCategorical(3)] on the labels [0, 2, 1]. *)
Lemma ToCategorical_rows_are_one_hot_witness :
  exists a,
    transform nearest_sample (OToCategorical (Some 3%Z)) labels_021 None
      quarter_rng
    = (Ok (VArr a), OToCategorical (Some 3%Z), quarter_rng)
    /\ shape a = [3; 3]%nat.
Proof.
  assert (Hall : Forall (fun x => (- 3 <= x < 3)%Z) (labels_of labels_021)).
  { rewrite labels_of_021. repeat constructor; lia. }
  destruct (ToCategorical_rows_are_one_hot nearest_sample labels_021 3 None
              quarter_rng eq_refl Hall) as (a & E & Hs & _).
  exists a. split; [exact E |].
  rewrite Hs, labels_of_021. reflexivity.
Defined.



Lemma labels_out_of_range (X : list Z) (k : Z) :
  Exists (fun x => (k <= x \/ x < - k)%Z) X ->
  forallb (fun x => (- k <=? x) && (x <? k))%Z X = false.
Proof.
  intros H. apply Exists_exists in H. destruct H as (x & Hin & Hx).
  destruct (forallb _ X) eqn:E; [| reflexivity].
  rewrite forallb_forall in E. specialize (E x Hin).
  apply andb_true_iff in E. destruct E as [E1 E2].
  apply Z.leb_le in E1. apply Z.ltb_lt in E2. lia.
Qed.

(** X18: [ToCategorical.transform] raises [IndexError] as soon as one label
    is k or more, or below -k, when [num_classes] is set to k > 0 (a label
    beyond the classes is refused, not encoded), and [ValueError] when
    [num_classes] is negative; on an input without elements it raises
    [ValueError] when [num_classes] is unset and returns an array of shape
    (0, k) when it is set to k > 0.  In every one of these cases the object
    is left as it was. *)
Theorem ToCategorical_refuses
  (ndi_sample : string -> R -> ndarray -> R -> R -> R)
  (X : ndarray) (k : Z) (y : option ndarray) (g : rng) :
  ((0 < k)%Z ->
   Exists (fun x => (k <= x \/ x < - k)%Z) (labels_of X) ->
   transform ndi_sample (OToCategorical (Some k)) X y g
   = (Raise IndexError, OToCategorical (Some k), g))
  /\ ((k < 0)%Z ->
      transform ndi_sample (OToCategorical (Some k)) X y g
      = (Raise ValueError, OToCategorical (Some k), g))
  /\ (labels_of X = [] ->
      transform ndi_sample (OToCategorical None) X y g
      = (Raise ValueError, OToCategorical None, g)
      /\ ((0 < k)%Z ->
          exists a,
            transform ndi_sample (OToCategorical (Some k)) X y g
            = (Ok (VArr a), OToCategorical (Some k), g)
            /\ shape a = [0%nat; Z.to_nat k])).
Proof.
  split; [| split].
  - intros Hk Hex. cbn [transform]. unfold ToCategorical_transform.
    fold (labels_of X).
    destruct (k =? 0)%Z eqn:Ek; [apply Z.eqb_eq in Ek; lia |].
    unfold one_hot.
    destruct (k <? 0)%Z eqn:E; [apply Z.ltb_lt in E; lia |].
    rewrite (labels_out_of_range _ _ Hex). reflexivity.
  - intros Hk. cbn [transform]. unfold ToCategorical_transform.
    fold (labels_of X).
    destruct (k =? 0)%Z eqn:Ek; [apply Z.eqb_eq in Ek; lia |].
    unfold one_hot.
    destruct (k <? 0)%Z eqn:E; [reflexivity | apply Z.ltb_ge in E; lia].
  - intros HX. split.
    + cbn [transform]. unfold ToCategorical_transform. fold (labels_of X).
      rewrite HX. reflexivity.
    + intros Hk. cbn [transform]. unfold ToCategorical_transform.
      fold (labels_of X). rewrite HX.
      destruct (k =? 0)%Z eqn:Ek; [apply Z.eqb_eq in Ek; lia |].
      unfold one_hot.
      destruct (k <? 0)%Z eqn:E; [apply Z.ltb_lt in E; lia |].
      cbn [forallb length]. eexists. split; reflexivity.
Qed.

(** [ToCategorical(2)] on the labels [0, 2, 1]: the label 2 is refused. *)
Lemma ToCategorical_refuses_witness :
  transform nearest_sample (OToCategorical (Some 2%Z)) labels_021 None
    quarter_rng
  = (Raise IndexError, OToCategorical (Some 2%Z), quarter_rng).
Proof.
  apply (proj1 (ToCategorical_refuses nearest_sample labels_021 2 None
                  quarter_rng)); [reflexivity |].
  rewrite labels_of_021. apply Exists_cons_tl. apply Exists_cons_hd. lia.
Defined.

(** ** [AffineCompose] over caller-supplied callables *)

Lemma fold_left_dot (Ms : list mat3) (M0 : mat3) :
  fold_left dot Ms M0 = dot M0 (fold_right dot identity Ms).
Proof.
  revert M0. induction Ms as [| M Ms IH]; intros M0; cbn [fold_left fold_right].
  - symmetry. apply dot_identity_r.
  - rewrite IH. apply dot_assoc.
Qed.

Lemma compose_loop_raises (rest : list obj) (X : ndarray) (m : mat3)
  (e : exn) (g g' : rng) :
  call_all rest X g = (Raise e, g') ->
  compose_loop rest X m g = (Raise e, g').
Proof.
  revert m g. induction rest as [| t rest IH]; intros m g H.
  - cbn in H. inversion H.
  - cbn [call_all] in H. cbn [compose_loop]. unfold bind in *.
    destruct (call t X g) as [[mi | e1] g1];
      [| inversion H; subst; reflexivity].
    destruct (call_all rest X g1) as [[ms | e2] g2] eqn:E.
    + unfold ret in H. inversion H.
    + inversion H; subst. apply IH. exact E.
Qed.

(** X19: when the objects an [AffineCompose] holds answer the call (as
    caller-supplied callables do) with the matrices M0, M1, ..., Mn, called
    once each and in this order, [transform] applies the one matrix
    M0 . M1 . ... . Mn to the image and to the target, the image with
    (fill_mode, fill_value) and the target with (target_fill_mode,
    target_fill_value); when one of the calls raises, [transform] raises
    the same exception, with the random source as that call left it. *)
Theorem AffineCompose_multiplies_in_order
  (ndi_sample : string -> R -> ndarray -> R -> R -> R)
  (transforms : list obj) (fc : fill_cfg) (X y : ndarray) (g g' : rng) :
  (forall M0 Ms,
     call_all transforms X g = (Ok (M0 :: Ms), g') ->
     let M := dot M0 (fold_right dot identity Ms) in
     compose_matrices transforms X g = (Ok M, g')
     /\ transform ndi_sample (OAffineCompose transforms fc) X (Some y) g
        = (x' <~ apply_transform ndi_sample X M (fill_mode fc) (fill_value fc)
                   (-1) ;;
           y' <~ apply_transform ndi_sample y M (target_fill_mode fc)
                   (target_fill_value fc) (-1) ;;
           Ok (VPair x' y'),
           OAffineCompose transforms fc, g')
     /\ transform ndi_sample (OAffineCompose transforms fc) X None g
        = (x' <~ apply_transform ndi_sample X M (fill_mode fc) (fill_value fc)
                   (-1) ;;
           Ok (VArr x'),
           OAffineCompose transforms fc, g'))
  /\ (forall e,
        call_all transforms X g = (Raise e, g') ->
        transform ndi_sample (OAffineCompose transforms fc) X (Some y) g
        = (Raise e, OAffineCompose transforms fc, g')).
Proof.
  split.
  - intros M0 Ms Hcall M.
    assert (Hm : compose_matrices transforms X g = (Ok M, g')).
    { unfold M. rewrite <- fold_left_dot.
      apply compose_matrices_product. exact Hcall. }
    split; [exact Hm |].
    destruct (Affine_transform_applies_one_matrix ndi_sample transforms fc
                X y M g g' Hm) as [Hpair Halone].
    cbn [transform]. unfold keep. rewrite Hpair, Halone.
    split; reflexivity.
  - intros e Hcall. cbn [transform]. unfold keep, Affine_transform, bind.
    assert (Hm : compose_matrices transforms X g = (Raise e, g')).
    { destruct transforms as [| t0 rest]; [cbn in Hcall; inversion Hcall |].
      cbn [call_all] in Hcall. cbn [compose_matrices]. unfold bind in *.
      destruct (call t0 X g) as [[m | e1] g1];
        [| inversion Hcall; subst; reflexivity].
      destruct (call_all rest X g1) as [[ms | e2] g2] eqn:E.
      - unfold ret in Hcall. inversion Hcall.
      - inversion Hcall; subst. apply compose_loop_raises. exact E. }
    rewrite Hm. reflexivity.
Qed.

(** Two callables that answer a quarter turn and a unit shift. *)
Lemma AffineCompose_multiplies_in_order_witness :
  compose_matrices
    [OCallable (fun _ => ret (Mat3 0 (-1) 0 1 0 0 0 0 1));
     OCallable (fun _ => ret (translation 1 0))]
    (blank [4; 5; 3]%nat) quarter_rng
  = (Ok (dot (Mat3 0 (-1) 0 1 0 0 0 0 1)
             (fold_right dot identity [translation 1 0])), quarter_rng).
Proof.
  exact (proj1 (proj1 (AffineCompose_multiplies_in_order nearest_sample
                         [OCallable (fun _ => ret (Mat3 0 (-1) 0 1 0 0 0 0 1));
                          OCallable (fun _ => ret (translation 1 0))]
                         default_fill (blank [4; 5; 3]%nat)
                         (blank [4; 5; 3]%nat) quarter_rng quarter_rng)
                  (Mat3 0 (-1) 0 1 0 0 0 0 1) [translation 1 0] eq_refl)).
Defined.
